(** * Dog Profiles API (main.py): a shallow embedding and its properties

    The program is a small read-only HTTP service.  [get_all_rows] reads
    every record of a spreadsheet through a one-slot TTL cache,
    [map_row_to_dog] reshapes one record into a nested profile, and the
    two handlers [get_dogs] and [get_dog] filter, respectively look up,
    the mapped profiles.

    Python values are modelled by [pyval]; a record of the sheet is a
    finite map from header strings to values (a Python [dict] with
    string keys); exceptions are explicit results. *)

From Stdlib Require Import ZArith String Ascii List Bool Lia.
From Stdlib Require Import DecimalString DecimalZ.
From stdpp Require Import gmap strings list.

Local Open Scope Z_scope.
Local Open Scope string_scope.

(** ** The part of the Python runtime the program relies on

    The float objects and two builtins on strings are left abstract: the
    program only passes values through them.  [float] stands for
    Python's float objects (gspread turns numeric-looking cells into
    [int] or [float]) with their truth value and their [str];
    [str_lower] is [str.lower] and [str_repr] is [repr] on a [str]. *)

Class PyRuntime := {
  float : Type;
  float_eq_dec :: EqDecision float;
  float_bool : float → bool;
  float_str : float → string;
  str_lower : string → string;
  str_repr : string → string
}.

(** ** Strings: [x in y] and ASCII lowering *)

(** [str_in sub s] is Python's [sub in s] on two [str] objects. *)
Fixpoint str_in (sub s : string) : bool :=
  String.prefix sub s ||
  match s with
  | EmptyString => false
  | String _ s' => str_in sub s'
  end.

Definition ascii_lower (c : ascii) : ascii :=
  let n := N_of_ascii c in
  if ((65 <=? n) && (n <=? 90))%N then ascii_of_N (n + 32) else c.

Fixpoint lower_ascii (s : string) : string :=
  match s with
  | EmptyString => EmptyString
  | String c s' => String (ascii_lower c) (lower_ascii s')
  end.

(** [str(n)] for a Python [int]. *)
Definition str_int (n : Z) : string := NilEmpty.string_of_int (Z.to_int n).

(** ** Results: a value, or a raised exception *)

Inductive result (E A : Type) :=
  | Ok (a : A)
  | Raise (e : E).
Arguments Ok {E A} a.
Arguments Raise {E A} e.

Definition bind {E A B} (m : result E A) (k : A → result E B) : result E B :=
  match m with
  | Ok a => k a
  | Raise e => Raise e
  end.

Notation "x <- m ;; k" := (bind m (λ x, k))
  (at level 100, m at next level, right associativity).

(** ** Values, records and profiles

    The types take the type [F] of float objects as a parameter. *)

Inductive pyval {F : Type} :=
  | VNone
  | VStr (s : string)
  | VInt (n : Z)
  | VFloat (x : F).
Arguments pyval : clear implicits.

#[global] Instance pyval_eq_dec `{EqDecision F} : EqDecision (pyval F).
Proof. solve_decision. Defined.

(** A record of the sheet, as [get_all_records] returns it. *)
Abbreviation row F := (gmap string (pyval F)).

(** A dict literal keeps its items in order; the values of a profile are
    either plain values or dicts of plain values. *)
Inductive entry {F : Type} :=
  | Atom (v : pyval F)
  | Sub (items : list (string * pyval F)).
Arguments entry : clear implicits.

#[global] Instance entry_eq_dec `{EqDecision F} : EqDecision (entry F).
Proof. solve_decision. Defined.

Abbreviation profile F := (list (string * entry F)).

(** ** Exceptions

    [exception] is what a run of the body of [get_all_rows] can raise: a
    [RuntimeError] built by the program, or an exception of a library
    (gspread, json, tempfile) of which only [str(e)] and [repr(e)] matter.
    [raised] is what leaves a request handler. *)

Inductive exception :=
  | RuntimeError (msg : string)
  | LibraryError (e_str e_repr : string).

Inductive raised :=
  | HTTPException (status_code : Z) (detail : string)
  | AttributeError (msg : string)
  | KeyError (key : string)
  | TypeError (of_type : string).

(** ** The outside world and the state of the process

    What the outside world answers during one run of the body of
    [get_all_rows] is an [attempt]. *)

Record attempt {F : Type} := {
  (** [os.getenv("GOOGLE_SERVICE_KEY")] *)
  service_json : option string;
  (** the exception raised by [json.loads], by the temporary file or by
      [gspread.service_account], if one is *)
  client_setup : option exception;
  (** [client.open_by_key(SPREADSHEET_ID).sheet1.get_all_records()] *)
  sheet_read : result exception (list (row F));
  (** clock time that passes between the cache lookup and the store *)
  elapsed : Z
}.
Arguments attempt : clear implicits.

(** [TTLCache(maxsize=1, ttl=CACHE_TTL_SECONDS)] under [@cached]: the
    function takes no argument, so the cache holds at most one item, the
    rows together with the clock reading at which they expire.  Clock
    readings are integers, in the unit of the TTL. *)
Abbreviation TTLCache F := (option (list (row F) * Z)).

(** The state of the process: the cache, and the number of runs of the
    body of [get_all_rows] so far (the remote fetches issued). *)
Record process {F : Type} := {
  cache : TTLCache F;
  fetches : nat
}.
Arguments process : clear implicits.

Section Program.
Context `{PyRuntime}.

Abbreviation pyval := (pyval float).
Abbreviation row := (row float).
Abbreviation entry := (entry float).
Abbreviation profile := (profile float).
Abbreviation attempt := (attempt float).
Abbreviation TTLCache := (TTLCache float).
Abbreviation process := (process float).

(** ** Operations on values *)

(** Truth value testing ([bool(v)]). *)
Definition truthy (v : pyval) : bool :=
  match v with
  | VNone => false
  | VStr s => negb (String.eqb s "")
  | VInt n => negb (n =? 0)%Z
  | VFloat x => float_bool x
  end.

(** [a or b]: the first operand when it is truthy, else the second. *)
Definition py_or (a b : pyval) : pyval := if truthy a then a else b.

(** [str(v)]. *)
Definition py_str (v : pyval) : string :=
  match v with
  | VNone => "None"
  | VStr s => s
  | VInt n => str_int n
  | VFloat x => float_str x
  end.

Definition is_str (v : pyval) : bool :=
  match v with VStr _ => true | _ => false end.

(** [row.get(key)]: the value, or [None] when the key is absent. *)
Definition row_get (r : row) (key : string) : pyval := default VNone (r !! key).

(** ** map_row_to_dog *)

Definition map_row_to_dog (r : row) (idx : Z) : profile :=
  [ ("dog_id", Atom (py_or (row_get r "dog_id") (VStr (str_int idx))));
    ("dog", Sub
      [ ("name", row_get r "Name");
        ("age", row_get r "Age");
        ("sex", row_get r "Sex");
        ("photo_url", row_get r "Photo") ]);
    ("owner", Sub
      [ ("name", row_get r "Pet owner's name");
        ("phone", row_get r "Pet owner's phone");
        ("preferred_contact", row_get r "Preferred contact method") ]);
    ("feeding", Sub
      [ ("times", row_get r "Feeding times (you can choose more than one answer)");
        ("amount", row_get r "  Amount of food per meal  ");
        ("allergies", row_get r "Food or environmental intolerances ");
        ("allergies_detail",
          row_get r "If yes, please details of any food or environmental intolerances:") ]);
    ("walks", Sub
      [ ("frequency", row_get r "Going for walks (you can choose more than one answer)");
        ("duration", row_get r "Approximate duration of each walk (in minutes): ") ]);
    ("behavior", Sub
      [ ("barks_in_reaction_to",
          row_get r "Barks in reaction to (If none, please just write 'None'):");
        ("afraid_of", row_get r "Is afraid of (If none, please just write 'None'):");
        ("owners_remark", row_get r "Some remarks we need to know:");
        ("medical_conditions", row_get r "Medical conditions / needs (optional)") ]) ].

(** ** Exceptions of the row source: [str(e)] and [repr(e)] *)

Definition exc_str (e : exception) : string :=
  match e with
  | RuntimeError msg => msg
  | LibraryError e_str _ => e_str
  end.

Definition exc_repr (e : exception) : string :=
  match e with
  | RuntimeError msg => "RuntimeError(" +:+ str_repr msg +:+ ")"
  | LibraryError _ e_repr => e_repr
  end.

(** ** Operations on values used by the handlers *)

Definition type_name (v : pyval) : string :=
  match v with
  | VNone => "NoneType"
  | VStr _ => "str"
  | VInt _ => "int"
  | VFloat _ => "float"
  end.

(** [v.lower()]: only [str] has the method. *)
Definition lower (v : pyval) : result raised string :=
  match v with
  | VStr s => Ok (str_lower s)
  | _ => Raise (AttributeError
           ("'" +:+ type_name v +:+ "' object has no attribute 'lower'"))
  end.

Fixpoint assoc {A} (items : list (string * A)) (key : string) : option A :=
  match items with
  | [] => None
  | (k, a) :: rest => if String.eqb k key then Some a else assoc rest key
  end.

(** [d[key]] on a dict. *)
Definition getitem {A} (items : list (string * A)) (key : string) : result raised A :=
  match assoc items key with
  | Some a => Ok a
  | None => Raise (KeyError key)
  end.

(** [dog_obj[section][field]]. *)
Definition getitem2 (dog_obj : profile) (section field : string) : result raised pyval :=
  e <- getitem dog_obj section ;;
  match e with
  | Sub items => getitem items field
  | Atom v => Raise (TypeError (type_name v))
  end.

(** ** get_dogs: the filtering loop (lines 111-125) *)

(** A query parameter is truthy when it is given and not empty. *)
Definition provided (q : option string) : option string :=
  match q with
  | Some s => if String.eqb s "" then None else Some s
  | None => None
  end.

(** The test [q and q.lower() not in (dog_obj[section]["name"] or "").lower()]. *)
Definition name_mismatch (q : option string) (dog_obj : profile) (section : string)
  : result raised bool :=
  match provided q with
  | None => Ok false
  | Some s =>
      name <- getitem2 dog_obj section "name" ;;
      low <- lower (py_or name (VStr "")) ;;
      Ok (negb (str_in (str_lower s) low))
  end.

(** The body of the loop for one profile: [Ok true] when it is appended. *)
Definition keeps (dog_name owner_name : option string) (dog_obj : profile)
  : result raised bool :=
  skip <- name_mismatch dog_name dog_obj "dog" ;;
  if skip then Ok false else
  skip <- name_mismatch owner_name dog_obj "owner" ;;
  if skip then Ok false else Ok true.

Fixpoint get_dogs_loop (dog_name owner_name : option string)
    (idx : Z) (rows : list row) (filtered : list profile)
  : result raised (list profile) :=
  match rows with
  | [] => Ok filtered
  | r :: rest =>
      let dog_obj := map_row_to_dog r idx in
      keep <- keeps dog_name owner_name dog_obj ;;
      get_dogs_loop dog_name owner_name (idx + 1) rest
        (if keep then filtered ++ [dog_obj] else filtered)
  end.

(** ** get_dog: the lookup loop (lines 135-140) *)

Fixpoint get_dog_loop (dog_id : string) (idx : Z) (rows : list row)
  : result raised profile :=
  match rows with
  | [] => Raise (HTTPException 404 "Dog not found")
  | r :: rest =>
      let row_id := py_or (row_get r "dog_id") (VStr (str_int idx)) in
      if String.eqb (py_str row_id) dog_id
      then Ok (map_row_to_dog r idx)
      else get_dog_loop dog_id (idx + 1) rest
  end.

(** ** The row source: get_gspread_client, get_all_rows and the cache *)

(** Every exception raised inside the [try] block, the missing
    environment variable included, is caught and raised again as a
    [RuntimeError] that quotes its [repr].  The [print] of the handler
    only writes to the log. *)
Definition get_gspread_client (a : attempt) : result exception unit :=
  let body :=
    match provided (service_json a) with
    | None => Raise (RuntimeError "Missing GOOGLE_SERVICE_KEY environment variable")
    | Some _ =>
        match client_setup a with
        | Some e => Raise e
        | None => Ok tt
        end
    end in
  match body with
  | Ok client => Ok client
  | Raise e => Raise (RuntimeError ("Failed to create gspread client: " +:+ exc_repr e))
  end.

(** The undecorated body of [get_all_rows]. *)
Definition fetch_rows (a : attempt) : result exception (list row) :=
  _ <- get_gspread_client a ;;
  sheet_read a.

Variable CACHE_TTL_SECONDS : Z.

(** [cache[key]] at clock reading [now]: an item is served while
    [now < expires]. *)
Definition cache_getitem (c : TTLCache) (now : Z) : option (list row) :=
  match c with
  | Some (v, expires) => if (now <? expires)%Z then Some v else None
  | None => None
  end.

(** [cache[key] = v] at clock reading [now]. *)
Definition cache_setitem (c : TTLCache) (now : Z) (v : list row) : TTLCache :=
  Some (v, now + CACHE_TTL_SECONDS).

(** [get_all_rows()] called at clock reading [now]: the wrapper of
    [@cached] returns the cached rows on a hit; on a miss it runs the
    body, and stores the result only when the body returns. *)
Definition get_all_rows (st : process) (now : Z) (a : attempt)
  : result exception (list row) * process :=
  match cache_getitem (cache st) now with
  | Some v => (Ok v, st)
  | None =>
      match fetch_rows a with
      | Ok v =>
          (Ok v, {| cache := cache_setitem (cache st) (now + elapsed a) v;
                    fetches := S (fetches st) |})
      | Raise e =>
          (Raise e, {| cache := cache st; fetches := S (fetches st) |})
      end
  end.

(** ** The two request handlers

    A handler is one sequential step on the state of the process.  What
    [except Exception] catches is any [exception] of the row source. *)

Definition get_dogs (dog_name owner_name : option string)
    (st : process) (now : Z) (a : attempt)
  : result raised (list profile) * process :=
  match get_all_rows st now a with
  | (Raise e, st') =>
      (Raise (HTTPException 500 ("Failed to read sheet: " +:+ exc_str e)), st')
  | (Ok rows, st') => (get_dogs_loop dog_name owner_name 1 rows [], st')
  end.

Definition get_dog (dog_id : string) (st : process) (now : Z) (a : attempt)
  : result raised profile * process :=
  match get_all_rows st now a with
  | (Raise e, st') =>
      (Raise (HTTPException 500 ("Failed to read sheet: " +:+ exc_str e)), st')
  | (Ok rows, st') => (get_dog_loop dog_id 1 rows, st')
  end.

(** ** Notions used to state the properties *)

(** The table behind the dict literal of [map_row_to_dog]: section,
    field and the header the field is read from. *)
Definition field_table : list (string * string * string) :=
  [ ("dog", "name", "Name");
    ("dog", "age", "Age");
    ("dog", "sex", "Sex");
    ("dog", "photo_url", "Photo");
    ("owner", "name", "Pet owner's name");
    ("owner", "phone", "Pet owner's phone");
    ("owner", "preferred_contact", "Preferred contact method");
    ("feeding", "times", "Feeding times (you can choose more than one answer)");
    ("feeding", "amount", "  Amount of food per meal  ");
    ("feeding", "allergies", "Food or environmental intolerances ");
    ("feeding", "allergies_detail",
      "If yes, please details of any food or environmental intolerances:");
    ("walks", "frequency", "Going for walks (you can choose more than one answer)");
    ("walks", "duration", "Approximate duration of each walk (in minutes): ");
    ("behavior", "barks_in_reaction_to",
      "Barks in reaction to (If none, please just write 'None'):");
    ("behavior", "afraid_of", "Is afraid of (If none, please just write 'None'):");
    ("behavior", "owners_remark", "Some remarks we need to know:");
    ("behavior", "medical_conditions", "Medical conditions / needs (optional)") ].

(** The profiles of [rows], the first one mapped at position [idx]. *)
Fixpoint mapped (idx : Z) (rows : list row) : list profile :=
  match rows with
  | [] => []
  | r :: rest => map_row_to_dog r idx :: mapped (idx + 1) rest
  end.

(** The loop of [get_dogs] run on profiles that are already mapped. *)
Fixpoint select (dog_name owner_name : option string) (ps : list profile)
  : result raised (list profile) :=
  match ps with
  | [] => Ok []
  | p :: rest =>
      keep <- keeps dog_name owner_name p ;;
      tl <- select dog_name owner_name rest ;;
      Ok (if keep then p :: tl else tl)
  end.

Definition passes (dog_name owner_name : option string) (p : profile) : bool :=
  match keeps dog_name owner_name p with
  | Ok keep => keep
  | Raise _ => false
  end.

(** The loop body raises on no profile of [ps]. *)
Definition checks (dog_name owner_name : option string) (ps : list profile) : Prop :=
  Forall (λ p, ∃ keep, keeps dog_name owner_name p = Ok keep) ps.

(** The value of a name field as text: [name or ""] when that is a [str]. *)
Definition name_text (v : pyval) : option string :=
  match py_or v (VStr "") with
  | VStr s => Some s
  | _ => None
  end.

(** The filter of the specification: a filter that is given and not
    empty has to occur, case-insensitively, in the name field, a null
    field counting as the empty string. *)
Definition occurs_in (q : option string) (name : string) : bool :=
  match provided q with
  | Some s => str_in (str_lower s) (str_lower name)
  | None => true
  end.

Definition satisfies (dog_name owner_name : option string) (r : row) : bool :=
  match name_text (row_get r "Name"), name_text (row_get r "Pet owner's name") with
  | Some dn, Some on => occurs_in dog_name dn && occurs_in owner_name on
  | _, _ => false
  end.

(** The profiles of the rows that satisfy the filters, each mapped at
    its own position. *)
Fixpoint satisfying (dog_name owner_name : option string) (idx : Z) (rows : list row)
  : list profile :=
  match rows with
  | [] => []
  | r :: rest =>
      if satisfies dog_name owner_name r
      then map_row_to_dog r idx :: satisfying dog_name owner_name (idx + 1) rest
      else satisfying dog_name owner_name (idx + 1) rest
  end.

(** [str(p["dog_id"])] of a profile. *)
Definition profile_id_str (p : profile) : option string :=
  match assoc p "dog_id" with
  | Some (Atom v) => Some (py_str v)
  | _ => None
  end.

(** The headers [map_row_to_dog] reads. *)
Definition headers : list string :=
  "dog_id" :: map (λ t, t.2) field_table.

(** A name cell on which [(name or "").lower()] raises: a truthy value
    that is not a [str]. *)
Definition numeric_name (v : pyval) : bool := truthy v && negb (is_str v).

(** Successive calls of [get_all_rows], each with its clock reading and
    what the outside world answers should the body run. *)
Fixpoint get_all_rows_seq (st : process) (calls : list (Z * attempt))
  : list (result exception (list row)) * process :=
  match calls with
  | [] => ([], st)
  | (now, a) :: rest =>
      let '(res, st1) := get_all_rows st now a in
      let '(ress, st2) := get_all_rows_seq st1 rest in
      (res :: ress, st2)
  end.

(** The calls follow each other on the clock: each one is made no
    earlier than [t], takes no negative time, and the next ones come
    after it has ended. *)
Fixpoint in_order (t : Z) (calls : list (Z * attempt)) : Prop :=
  match calls with
  | [] => True
  | (now, a) :: rest => (t ≤ now)%Z ∧ (0 ≤ elapsed a)%Z ∧ in_order (now + elapsed a) rest
  end.

End Program.

(** ** A runtime for examples: ASCII text, no float cells *)

Definition ascii_runtime : PyRuntime := {|
  float := Empty_set;
  float_bool := λ _, true;
  float_str := λ _, "";
  str_lower := lower_ascii;
  str_repr := λ s, "'" +:+ s +:+ "'"
|}.

(** ** Data for the examples *)

Section ExampleData.
#[local] Existing Instance ascii_runtime.

Abbreviation pyval := (pyval float).
Abbreviation row := (row float).
Abbreviation entry := (entry float).
Abbreviation profile := (profile float).
Abbreviation attempt := (attempt float).
Abbreviation TTLCache := (TTLCache float).
Abbreviation process := (process float).

Definition rex : row :=
  {[ "Name" := VStr "T-Rex Jr"; "Pet owner's name" := VStr "Jane Doe" ]}.

Definition bella : row :=
  {[ "dog_id" := VInt 5; "Name" := VStr "Bella"; "Pet owner's name" := VStr "JANE ROE" ]}.

Definition rexy : row :=
  {[ "dog_id" := VStr "5"; "Name" := VStr "Rexy"; "Pet owner's name" := VStr "Bob" ]}.

(** A dog whose name cell is read back as the number 123. *)
Definition numbered : row :=
  {[ "Name" := VInt 123; "Pet owner's name" := VStr "Bob" ]}.

Definition kennel : list row := [rex; bella; rexy].

(** Two dogs entered with the same number as [dog_id]. *)
Definition ace : row := {[ "dog_id" := VInt 5; "Name" := VStr "Ace" ]}.

Definition bee : row := {[ "dog_id" := VInt 5; "Name" := VStr "Bee" ]}.

(** [rex] with a column the mapping does not read. *)
Definition rex_with_breed : row := <[ "Breed" := VStr "Collie" ]> rex.

(** A dog whose owner cell is read back as the number 7. *)
Definition stray : row :=
  {[ "Name" := VStr "Bella"; "Pet owner's name" := VInt 7 ]}.

Definition fresh : process := {| cache := None; fetches := 0 |}.

(** The process after a fetch of [kennel] that was stored at clock
    reading 1 under a TTL of 30. *)
Definition warm : process := {| cache := Some (kennel, 31%Z); fetches := 1 |}.

(** The sheet answers with [rows], one clock unit after the lookup. *)
Definition sheet (rows : list row) : attempt :=
  {| service_json := Some "{}"; client_setup := None;
     sheet_read := Ok rows; elapsed := 1 |}.

(** The service refuses the credentials. *)
Definition revoked : attempt :=
  {| service_json := Some "{}"; client_setup := None;
     sheet_read := Raise (LibraryError "invalid_grant: Token has been revoked"
                            "RefreshError('invalid_grant: Token has been revoked')");
     elapsed := 1 |}.

End ExampleData.

(** * Properties *)

(** ** Strings *)

Lemma prefix_app (sub post : string) : String.prefix sub (sub +:+ post) = true.
Proof.
  induction sub as [|c sub IH]; simpl.
  - by destruct post.
  - destruct (ascii_dec c c); [apply IH | done].
Qed.

Lemma prefix_split (sub s : string) :
  String.prefix sub s = true → ∃ post, s = sub +:+ post.
Proof.
  revert s. induction sub as [|c sub IH]; intros s Hp.
  - by exists s.
  - destruct s as [|c' s]; simpl in Hp; [done|].
    destruct (ascii_dec c c') as [->|]; [|done].
    destruct (IH s Hp) as [post ->]. by exists post.
Qed.

Lemma str_in_nil (sub : string) : str_in sub "" = String.prefix sub "".
Proof. unfold str_in. apply orb_false_r. Qed.

Lemma str_in_cons (sub : string) (c : ascii) (s : string) :
  str_in sub (String c s) = String.prefix sub (String c s) || str_in sub s.
Proof. reflexivity. Qed.

(** [str_in] is the substring relation. *)
Lemma str_in_spec (sub s : string) :
  str_in sub s = true ↔ ∃ pre post, s = pre +:+ sub +:+ post.
Proof.
  split.
  - induction s as [|c s IH]; intros Hin.
    + rewrite str_in_nil in Hin. apply prefix_split in Hin as [post Hs].
      by exists "", post.
    + rewrite str_in_cons in Hin. apply orb_true_iff in Hin as [Hp|Hin].
      * apply prefix_split in Hp as [post Hs]. by exists "", post.
      * destruct (IH Hin) as (pre & post & ->). by exists (String c pre), post.
  - intros (pre & post & ->). induction pre as [|c pre IH].
    + change ("" +:+ sub +:+ post) with (sub +:+ post).
      destruct (sub +:+ post) as [|c t] eqn:E.
      * rewrite str_in_nil, <- E. apply prefix_app.
      * rewrite str_in_cons, <- E, prefix_app. done.
    + change (String c pre +:+ sub +:+ post) with (String c (pre +:+ sub +:+ post)).
      rewrite str_in_cons, IH. apply orb_true_r.
Qed.

Lemma append_nil_r (s : string) : s +:+ "" = s.
Proof.
  induction s as [|c s IH]; [done|].
  change (String c (s +:+ "") = String c s). by rewrite IH.
Qed.

Lemma append_assoc (x y z : string) : (x +:+ y) +:+ z = x +:+ y +:+ z.
Proof.
  induction x as [|c x IH]; [done|].
  change (String c ((x +:+ y) +:+ z) = String c (x +:+ y +:+ z)). by rewrite IH.
Qed.

Lemma str_in_suffix (pre s : string) : str_in s (pre +:+ s) = true.
Proof. apply str_in_spec. exists pre, "". by rewrite append_nil_r. Qed.

Lemma str_in_trans (a b c : string) :
  str_in a b = true → str_in b c = true → str_in a c = true.
Proof.
  rewrite !str_in_spec. intros (p1 & q1 & ->) (p2 & q2 & ->).
  exists (p2 +:+ p1), (q1 +:+ q2). by rewrite !append_assoc.
Qed.

(** [str_int] writes a number in base ten: reading the digits back
    gives the number. *)
Lemma str_int_decimal (n : Z) :
  Z.of_int <$> NilEmpty.int_of_string (str_int n) = Some n.
Proof.
  unfold str_int. rewrite NilEmpty.isi. simpl. by rewrite DecimalZ.of_to.
Qed.

Example str_int_3 : str_int 3 = "3".
Proof. reflexivity. Qed.

Example str_int_120 : str_int 120 = "120".
Proof. reflexivity. Qed.

Example lower_ascii_rex : lower_ascii "T-Rex Jr" = "t-rex jr".
Proof. reflexivity. Qed.

Section Properties.
Context `{PyRuntime}.

Abbreviation pyval := (pyval float).
Abbreviation row := (row float).
Abbreviation entry := (entry float).
Abbreviation profile := (profile float).
Abbreviation attempt := (attempt float).
Abbreviation TTLCache := (TTLCache float).
Abbreviation process := (process float).

(** ** map_row_to_dog *)

Lemma row_get_absent (r : row) (key : string) :
  r !! key = None → row_get r key = VNone.
Proof. unfold row_get. by intros ->. Qed.

Lemma row_get_present (r : row) (key : string) (v : pyval) :
  r !! key = Some v → row_get r key = v.
Proof. unfold row_get. by intros ->. Qed.

(** C1: the [dog_id] of the mapped profile is the row's own [dog_id]
    value when the row has one and it is truthy, and otherwise the
    decimal string of the position: the string whose digits read back
    as the position. *)
Theorem map_row_to_dog_dog_id (r : row) (idx : Z) :
  ∃ id : pyval,
    getitem (map_row_to_dog r idx) "dog_id" = Ok (Atom id)
    ∧ match r !! "dog_id" with
      | Some v => if truthy v then id = v else id = VStr (str_int idx)
      | None => id = VStr (str_int idx)
      end
    ∧ Z.of_int <$> NilEmpty.int_of_string (str_int idx) = Some idx.
Proof.
  exists (py_or (row_get r "dog_id") (VStr (str_int idx))).
  split; [reflexivity|]. split; [|apply str_int_decimal].
  unfold py_or, row_get. destruct (r !! "dog_id") as [v|]; simpl; [|done].
  by destruct (truthy v).
Qed.

(** C2: [map_row_to_dog] is a total function, and in its result the six
    top-level keys and every field of [dog], [owner], [feeding], [walks]
    and [behavior] are present; a field holds the value of its header,
    and [None] when the row has no such header. *)
Theorem map_row_to_dog_shape (r : row) (idx : Z) :
  map fst (map_row_to_dog r idx) =
    ["dog_id"; "dog"; "owner"; "feeding"; "walks"; "behavior"]
  ∧ (∃ v, getitem (map_row_to_dog r idx) "dog_id" = Ok (Atom v))
  ∧ Forall (λ '(section, field, header),
      getitem2 (map_row_to_dog r idx) section field = Ok (default VNone (r !! header)))
      field_table
  ∧ Forall (λ '(section, field, header),
      getitem2 (map_row_to_dog ∅ idx) section field = Ok VNone)
      field_table.
Proof.
  split; [reflexivity|]. split; [eexists; reflexivity|].
  split; repeat constructor.
Qed.

(** ** get_dogs: the loop is a filter over the mapped profiles *)

Lemma get_dogs_loop_select (d o : option string) (rows : list row) :
  ∀ (idx : Z) (acc : list profile),
    get_dogs_loop d o idx rows acc =
      (tl <- select d o (mapped idx rows) ;; Ok (acc ++ tl)%list).
Proof.
  induction rows as [|r rest IH]; intros idx acc; simpl.
  - by rewrite app_nil_r.
  - destruct (keeps d o (map_row_to_dog r idx)) as [keep|e]; simpl; [|done].
    rewrite IH. destruct (select d o (mapped (idx + 1) rest)) as [tl|e]; simpl; [|done].
    destruct keep; [|done]. by rewrite <- app_assoc.
Qed.

Lemma get_dogs_loop_nil_acc (d o : option string) (rows : list row) (idx : Z) :
  get_dogs_loop d o idx rows [] = select d o (mapped idx rows).
Proof. rewrite get_dogs_loop_select. by destruct (select d o (mapped idx rows)). Qed.

Lemma mapped_lookup (rows : list row) :
  ∀ (idx : Z) (i : nat),
    mapped idx rows !! i = (λ r, map_row_to_dog r (idx + Z.of_nat i)) <$> rows !! i.
Proof.
  induction rows as [|r rest IH]; intros idx [|i]; simpl; try done.
  - by rewrite Z.add_0_r.
  - rewrite IH. by replace (idx + 1 + Z.of_nat i)%Z with (idx + Z.pos (Pos.of_succ_nat i))%Z by lia.
Qed.

Lemma select_Ok_inv (d o : option string) (ps : list profile) :
  ∀ qs, select d o ps = Ok qs → checks d o ps ∧ qs = List.filter (passes d o) ps.
Proof.
  unfold checks, passes.
  induction ps as [|p rest IH]; simpl; intros qs Hsel.
  - by injection Hsel as <-.
  - destruct (keeps d o p) as [keep|e] eqn:Hk; simpl in Hsel; [|done].
    destruct (select d o rest) as [tl|e]; simpl in Hsel; [|done].
    injection Hsel as <-. destruct (IH tl eq_refl) as [Hall ->].
    split; [constructor; eauto|]. by destruct keep.
Qed.

Lemma select_checks (d o : option string) (ps : list profile) :
  checks d o ps → select d o ps = Ok (List.filter (passes d o) ps).
Proof.
  unfold checks, passes.
  induction 1 as [|p rest [keep Hk] _ IH]; simpl; [done|].
  rewrite Hk, IH. simpl. by destruct keep.
Qed.

Lemma checks_filter (d o : option string) (f : profile → bool) (ps : list profile) :
  checks d o ps → checks d o (List.filter f ps).
Proof.
  unfold checks. rewrite !Forall_forall. intros Hall p Hp.
  apply Hall. rewrite list_elem_of_In in *. by apply filter_In in Hp as [? _].
Qed.

Lemma filter_filter_andb {A} (f g : A → bool) (l : list A) :
  List.filter f (List.filter g l) = List.filter (λ x, g x && f x) l.
Proof.
  induction l as [|x l IH]; simpl; [done|].
  destruct (g x); simpl; [destruct (f x)|]; by rewrite IH.
Qed.

Lemma filter_ext_Forall {A} (f g : A → bool) (l : list A) :
  Forall (λ x, f x = g x) l → List.filter f l = List.filter g l.
Proof. induction 1 as [|x l Hx _ IH]; simpl; [done|]. by rewrite Hx, IH. Qed.

Lemma list_intersection_filter {A} `{!EqDecision A} (f g : A → bool) (l : list A) :
  list_intersection (List.filter f l) (List.filter g l) =
    List.filter (λ x, f x && g x) l.
Proof.
  assert (Hgen : ∀ k, (∀ x, x ∈ l → x ∈ k ↔ g x = true) →
    list_intersection (List.filter f l) k = List.filter (λ x, f x && g x) l).
  { intros k. induction l as [|x l IH]; intros Hk; simpl; [done|].
    assert (Hl : ∀ y, y ∈ l → y ∈ k ↔ g y = true).
    { intros y Hy. apply Hk. by right. }
    destruct (f x); simpl; [|by apply IH].
    rewrite (IH Hl). unfold decide_rel.
    destruct (list_elem_of_dec x k) as [Hin|Hout], (g x) eqn:Hg; try done.
    - apply Hk in Hin; [congruence|by left].
    - exfalso. apply Hout, Hk; [by left|done]. }
  apply Hgen. intros x Hx. rewrite list_elem_of_In, filter_In, <- list_elem_of_In.
  tauto.
Qed.

(** The two tests of the loop body are independent of each other. *)
Lemma keeps_both (d o : option string) (p : profile) (kd ko : bool) :
  keeps d None p = Ok kd → keeps None o p = Ok ko → keeps d o p = Ok (kd && ko).
Proof.
  unfold keeps. change (name_mismatch None p "owner") with (@Ok raised _ false).
  change (name_mismatch None p "dog") with (@Ok raised _ false). simpl.
  destruct (name_mismatch d p "dog") as [[]|]; simpl;
    destruct (name_mismatch o p "owner") as [[]|]; simpl;
    intros; simplify_eq; done.
Qed.

Lemma checks_both (d o : option string) (ps : list profile) :
  checks d None ps → checks None o ps →
  checks d o ps ∧
  Forall (λ p, passes d o p = passes d None p && passes None o p) ps.
Proof.
  unfold checks, passes. rewrite !Forall_forall. intros Hd Ho. split; intros p Hp.
  - destruct (Hd p Hp) as [kd Hkd], (Ho p Hp) as [ko Hko].
    exists (kd && ko). by apply keeps_both.
  - destruct (Hd p Hp) as [kd Hkd], (Ho p Hp) as [ko Hko].
    by rewrite (keeps_both _ _ _ _ _ Hkd Hko), Hkd, Hko.
Qed.

(** Filtering a second time with the same filters changes nothing. *)
Lemma select_idempotent (d o : option string) (ps qs : list profile) :
  select d o ps = Ok qs → select d o qs = Ok qs.
Proof.
  intros Hsel. apply select_Ok_inv in Hsel as [Hall ->].
  rewrite select_checks by by apply checks_filter.
  f_equal. rewrite filter_filter_andb. apply filter_ext_Forall, Forall_forall.
  intros p _. apply andb_diag.
Qed.

(** C4: when each filter alone returns a list, both filters together
    return the intersection of the two lists, filtering by one and then
    by the other gives that same list in either order, and filtering a
    result again with its own filters returns it unchanged. *)
Theorem filters_intersect_commute_idempotent
    (d o : option string) (rows : list row) (ds os : list profile) :
  get_dogs_loop d None 1 rows [] = Ok ds →
  get_dogs_loop None o 1 rows [] = Ok os →
  get_dogs_loop d o 1 rows [] = Ok (list_intersection ds os)
  ∧ (select None o ds = Ok (list_intersection ds os)
     ∧ select d None os = Ok (list_intersection ds os))
  ∧ (select d None ds = Ok ds
     ∧ select None o os = Ok os
     ∧ select d o (list_intersection ds os) = Ok (list_intersection ds os)).
Proof.
  rewrite !get_dogs_loop_nil_acc. set (ps := mapped 1 rows).
  intros Hd Ho.
  pose proof (select_idempotent _ _ _ _ Hd) as Hdd.
  pose proof (select_idempotent _ _ _ _ Ho) as Hoo.
  apply select_Ok_inv in Hd as [Hcd ->]. apply select_Ok_inv in Ho as [Hco ->].
  destruct (checks_both d o ps Hcd Hco) as [Hc Hpass].
  rewrite list_intersection_filter.
  assert (Hboth : select d o ps =
    Ok (List.filter (λ p, passes d None p && passes None o p) ps)).
  { rewrite (select_checks _ _ _ Hc). f_equal. by apply filter_ext_Forall. }
  repeat split; try done.
  - rewrite select_checks by by apply checks_filter.
    by rewrite filter_filter_andb.
  - rewrite select_checks by by apply checks_filter.
    rewrite filter_filter_andb. f_equal. apply filter_ext_Forall, Forall_forall.
    intros p _. apply andb_comm.
  - by apply select_idempotent in Hboth.
Qed.

(** *** The filter on rows whose two name cells are text or empty *)

Lemma keeps_text (d o : option string) (r : row) (idx : Z) (dn on : string) :
  name_text (row_get r "Name") = Some dn →
  name_text (row_get r "Pet owner's name") = Some on →
  keeps d o (map_row_to_dog r idx) = Ok (occurs_in d dn && occurs_in o on).
Proof.
  unfold keeps, name_mismatch, occurs_in, name_text.
  change (getitem2 (map_row_to_dog r idx) "dog" "name") with (@Ok raised _ (row_get r "Name")).
  change (getitem2 (map_row_to_dog r idx) "owner" "name")
    with (@Ok raised _ (row_get r "Pet owner's name")).
  intros Hd Ho. simpl.
  destruct (py_or (row_get r "Name") (VStr "")); simplify_eq.
  destruct (py_or (row_get r "Pet owner's name") (VStr "")); simplify_eq.
  destruct (provided d), (provided o); simpl;
    repeat (match goal with |- context [str_in ?a ?b] => destruct (str_in a b) end; simpl);
    done.
Qed.

(** On rows whose [Name] and [Pet owner's name] cells are text (or
    empty, or absent), [get_dogs] returns the profiles of the rows that
    satisfy the filters, in the order of the rows. *)
Lemma get_dogs_loop_text (d o : option string) (rows : list row) (idx : Z) :
  Forall (λ r, is_Some (name_text (row_get r "Name"))
             ∧ is_Some (name_text (row_get r "Pet owner's name"))) rows →
  get_dogs_loop d o idx rows [] = Ok (satisfying d o idx rows).
Proof.
  rewrite get_dogs_loop_nil_acc. intros Hall. revert idx.
  induction Hall as [|r rest [[dn Hdn] [on Hon]] _ IH]; intros idx; simpl; [done|].
  rewrite (keeps_text d o r idx dn on Hdn Hon), IH. unfold satisfies.
  rewrite Hdn, Hon. simpl. by destruct (occurs_in d dn && occurs_in o on).
Qed.

(** A name cell that holds a number makes the loop body raise as soon
    as the corresponding filter is given. *)
Lemma keeps_numeric_name (d o : option string) (q : string) (r : row) (idx : Z) :
  provided d = Some q →
  truthy (row_get r "Name") = true →
  is_str (row_get r "Name") = false →
  keeps d o (map_row_to_dog r idx) =
    Raise (AttributeError
      ("'" +:+ type_name (row_get r "Name") +:+ "' object has no attribute 'lower'")).
Proof.
  unfold keeps, name_mismatch, py_or. intros -> Ht Hs.
  change (getitem2 (map_row_to_dog r idx) "dog" "name") with (@Ok raised _ (row_get r "Name")).
  simpl. rewrite Ht. by destruct (row_get r "Name").
Qed.

(** ** get_dog: first match on the coerced identifier *)

Lemma profile_id_str_mapped (r : row) (idx : Z) :
  profile_id_str (map_row_to_dog r idx) =
    Some (py_str (py_or (row_get r "dog_id") (VStr (str_int idx)))).
Proof. reflexivity. Qed.

Lemma get_dog_loop_first (dog_id : string) (rows : list row) :
  ∀ idx : Z,
    (∃ (i : nat) (r : row),
        rows !! i = Some r
        ∧ profile_id_str (map_row_to_dog r (idx + Z.of_nat i)) = Some dog_id
        ∧ (∀ (j : nat) (r' : row), (j < i)%nat → rows !! j = Some r' →
             profile_id_str (map_row_to_dog r' (idx + Z.of_nat j)) ≠ Some dog_id)
        ∧ get_dog_loop dog_id idx rows = Ok (map_row_to_dog r (idx + Z.of_nat i)))
    ∨ ((∀ (j : nat) (r' : row), rows !! j = Some r' →
          profile_id_str (map_row_to_dog r' (idx + Z.of_nat j)) ≠ Some dog_id)
       ∧ get_dog_loop dog_id idx rows = Raise (HTTPException 404 "Dog not found")).
Proof.
  induction rows as [|r rest IH]; intros idx.
  - right. split; [|done]. by intros j r' Hj.
  - cbn [get_dog_loop].
    destruct (String.eqb_spec
      (py_str (py_or (row_get r "dog_id") (VStr (str_int idx)))) dog_id) as [Heq|Hne].
    + left. exists 0%nat, r. rewrite Z.add_0_r, profile_id_str_mapped.
      split; [done|]. split; [by rewrite Heq|]. split; [lia|done].
    + assert (Hshift : ∀ j : nat, (idx + 1 + Z.of_nat j = idx + Z.of_nat (S j))%Z) by lia.
      destruct (IH (idx + 1)%Z) as [(i & r0 & Hi & Hid & Hbefore & Hres)|[Hnone Hres]].
      * left. exists (S i), r0. rewrite <- Hshift. repeat split; try done.
        intros [|j] r' Hj Hr'.
        -- injection Hr' as <-. rewrite Z.add_0_r, profile_id_str_mapped. congruence.
        -- rewrite <- Hshift. apply Hbefore; [lia|done].
      * right. split; [|done]. intros [|j] r' Hr'.
        -- injection Hr' as <-. rewrite Z.add_0_r, profile_id_str_mapped. congruence.
        -- rewrite <- Hshift. by apply Hnone.
Qed.

(** What the loop returns is the profile of some row that matches. *)
Lemma get_dog_loop_Ok (dog_id : string) (rows : list row) (idx : Z) (p : profile) :
  get_dog_loop dog_id idx rows = Ok p →
  ∃ (i : nat) (r : row),
    rows !! i = Some r ∧ p = map_row_to_dog r (idx + Z.of_nat i)
    ∧ profile_id_str p = Some dog_id.
Proof.
  intros Hp.
  destruct (get_dog_loop_first dog_id rows idx) as [(i & r & Hi & Hid & _ & Hres)|[_ Hres]];
    rewrite Hres in Hp; [|done].
  injection Hp as <-. eauto.
Qed.

Section Handlers.
Variable CACHE_TTL_SECONDS : Z.

Lemma get_dogs_rows (d o : option string) (st st' : process) (now : Z) (a : attempt)
    (rows : list row) :
  get_all_rows CACHE_TTL_SECONDS st now a = (Ok rows, st') →
  get_dogs CACHE_TTL_SECONDS d o st now a = (get_dogs_loop d o 1 rows [], st').
Proof. unfold get_dogs. by intros ->. Qed.

Lemma get_dog_rows (dog_id : string) (st st' : process) (now : Z) (a : attempt)
    (rows : list row) :
  get_all_rows CACHE_TTL_SECONDS st now a = (Ok rows, st') →
  get_dog CACHE_TTL_SECONDS dog_id st now a = (get_dog_loop dog_id 1 rows, st').
Proof. unfold get_dog. by intros ->. Qed.

(** C5: once the rows are read, [get_dog] returns the profile of the
    first row, in row order, whose [dog_id] converted to a string is
    equal to the requested identifier; it raises the 404 error when no
    row has such an identifier, and so for every request on an empty
    sheet. *)
Theorem get_dog_first_match (dog_id : string) (st st' : process) (now : Z)
    (a : attempt) (rows : list row) :
  get_all_rows CACHE_TTL_SECONDS st now a = (Ok rows, st') →
  ((∃ (i : nat) (r : row),
       rows !! i = Some r
       ∧ profile_id_str (map_row_to_dog r (1 + Z.of_nat i)) = Some dog_id
       ∧ (∀ (j : nat) (r' : row), (j < i)%nat → rows !! j = Some r' →
            profile_id_str (map_row_to_dog r' (1 + Z.of_nat j)) ≠ Some dog_id)
       ∧ get_dog CACHE_TTL_SECONDS dog_id st now a =
           (Ok (map_row_to_dog r (1 + Z.of_nat i)), st'))
   ∨ ((∀ (j : nat) (r' : row), rows !! j = Some r' →
         profile_id_str (map_row_to_dog r' (1 + Z.of_nat j)) ≠ Some dog_id)
      ∧ get_dog CACHE_TTL_SECONDS dog_id st now a =
          (Raise (HTTPException 404 "Dog not found"), st')))
  ∧ (rows = [] →
     get_dog CACHE_TTL_SECONDS dog_id st now a =
       (Raise (HTTPException 404 "Dog not found"), st')).
Proof.
  intros Hrows. rewrite (get_dog_rows _ _ _ _ _ _ Hrows). split.
  - destruct (get_dog_loop_first dog_id rows 1)
      as [(i & r & Hi & Hid & Hbefore & Hres)|[Hnone Hres]]; rewrite Hres.
    + left. by exists i, r.
    + by right.
  - by intros ->.
Qed.

(** C10, amended for sheets with repeated identifiers: a row whose
    [dog_id] cell holds a truthy value [v] that is not a string, and
    before which no row answers to [s], is the row [get_dog] returns
    exactly when [s] is [str(v)]; the profile returned for it carries
    [v] itself, not the string. *)
Theorem get_dog_coerces_row_id (s : string) (st st' : process) (now : Z)
    (a : attempt) (rows : list row) (i : nat) (r : row) (v : pyval) :
  get_all_rows CACHE_TTL_SECONDS st now a = (Ok rows, st') →
  rows !! i = Some r →
  r !! "dog_id" = Some v →
  truthy v = true →
  is_str v = false →
  (∀ (j : nat) (r' : row), (j < i)%nat → rows !! j = Some r' →
     profile_id_str (map_row_to_dog r' (1 + Z.of_nat j)) ≠ Some s) →
  (get_dog CACHE_TTL_SECONDS s st now a = (Ok (map_row_to_dog r (1 + Z.of_nat i)), st')
     ↔ s = py_str v)
  ∧ getitem (map_row_to_dog r (1 + Z.of_nat i)) "dog_id" = Ok (Atom v).
Proof.
  intros Hrows Hi Hv Ht Hs Hbefore.
  rewrite (get_dog_rows _ _ _ _ _ _ Hrows).
  assert (Hid : ∀ idx, py_or (row_get r "dog_id") (VStr (str_int idx)) = v).
  { intros idx. unfold py_or. by rewrite (row_get_present _ _ _ Hv), Ht. }
  split.
  - split.
    + intros [= Hres]. apply get_dog_loop_Ok in Hres as (k & r' & _ & _ & Hmatch).
      rewrite profile_id_str_mapped, Hid in Hmatch. congruence.
    + intros ->.
      destruct (get_dog_loop_first (py_str v) rows 1)
        as [(k & r' & Hk & Hmatch & Hfirst & Hres)|[Hnone Hres]].
      * destruct (lt_eq_lt_dec k i) as [[Hlt| ->]|Hgt].
        -- by destruct (Hbefore k r' Hlt Hk).
        -- rewrite Hres. congruence.
        -- destruct (Hfirst i r Hgt Hi). by rewrite profile_id_str_mapped, Hid.
      * destruct (Hnone i r Hi). by rewrite profile_id_str_mapped, Hid.
  - change (getitem (map_row_to_dog r (1 + Z.of_nat i)) "dog_id")
      with (@Ok raised _ (Atom (py_or (row_get r "dog_id") (VStr (str_int (1 + Z.of_nat i)))))).
    by rewrite Hid.
Qed.

(** ** get_all_rows and the cache *)

Lemma get_all_rows_hit (st : process) (now : Z) (a : attempt) (v : list row) :
  cache_getitem (cache st) now = Some v →
  get_all_rows CACHE_TTL_SECONDS st now a = (Ok v, st).
Proof. unfold get_all_rows. by intros ->. Qed.

Lemma get_all_rows_miss (st : process) (now : Z) (a : attempt) :
  cache_getitem (cache st) now = None →
  get_all_rows CACHE_TTL_SECONDS st now a =
    match fetch_rows a with
    | Ok v => (Ok v, {| cache := Some (v, now + elapsed a + CACHE_TTL_SECONDS);
                        fetches := S (fetches st) |})
    | Raise e => (Raise e, {| cache := cache st; fetches := S (fetches st) |})
    end.
Proof. unfold get_all_rows. by intros ->. Qed.

Lemma cache_getitem_Some (c : TTLCache) (now : Z) (v : list row) :
  cache_getitem c now = Some v ↔ ∃ expires, c = Some (v, expires) ∧ (now < expires)%Z.
Proof.
  unfold cache_getitem. destruct c as [[v' expires]|].
  - destruct (Z.ltb_spec now expires); split.
    + intros [= ->]. eauto.
    + by intros (? & [= -> ->] & _).
    + done.
    + intros (? & [= -> ->] & ?). lia.
  - split; [done|]. by intros (? & ? & _).
Qed.

Lemma cache_getitem_None (c : TTLCache) (now : Z) :
  cache_getitem c now = None ↔
    c = None ∨ ∃ v expires, c = Some (v, expires) ∧ (expires ≤ now)%Z.
Proof.
  unfold cache_getitem. destruct c as [[v expires]|].
  - destruct (Z.ltb_spec now expires); split.
    + done.
    + intros [?|(? & ? & [= -> ->] & ?)]; [done|lia].
    + intros _. right. eauto.
    + done.
  - split; [by left|done].
Qed.

(** Any one call runs the body at most once. *)
Lemma get_all_rows_fetches (st : process) (now : Z) (a : attempt) :
  (fetches (get_all_rows CACHE_TTL_SECONDS st now a).2 ≤ S (fetches st))%nat.
Proof.
  unfold get_all_rows. destruct (cache_getitem (cache st) now); simpl; [lia|].
  destruct (fetch_rows a); simpl; lia.
Qed.

(** While the item left in the cache by a call has not expired, the
    next call returns its rows without a fetch, and they are the rows
    the first call returned. *)
Lemma get_all_rows_within_window (st st1 : process) (t1 t2 : Z) (a1 a2 : attempt)
    (res : result exception (list row)) (v : list row) (expires : Z) :
  get_all_rows CACHE_TTL_SECONDS st t1 a1 = (res, st1) →
  cache st1 = Some (v, expires) →
  (t1 ≤ t2 < expires)%Z →
  get_all_rows CACHE_TTL_SECONDS st1 t2 a2 = (Ok v, st1) ∧ res = Ok v.
Proof.
  intros Hcall Hc [Hle Hlt]. split.
  - apply get_all_rows_hit, cache_getitem_Some. eauto.
  - destruct (cache_getitem (cache st) t1) as [v'|] eqn:Hget.
    + rewrite (get_all_rows_hit _ _ _ _ Hget) in Hcall. injection Hcall as <- <-.
      apply cache_getitem_Some in Hget as (? & Hc' & _). congruence.
    + rewrite (get_all_rows_miss _ _ _ Hget) in Hcall.
      destruct (fetch_rows a1) as [v'|e]; injection Hcall as <- <-; simpl in Hc.
      * congruence.
      * apply cache_getitem_None in Hget as [Hnone|(? & ? & Hsome & ?)];
          [congruence|]. rewrite Hsome in Hc. injection Hc as -> ->. lia.
Qed.

(** C6: after a call at [t1] that returned rows, a second call made
    less than the TTL after [t1] brings the number of remote fetches of
    the two calls to at most one, and when the first call fetched, the
    second returns the same rows from the cache without a fetch.  The
    item then in the cache expires one TTL after it was stored, and a
    call at or after its expiry runs a new fetch. *)
Theorem get_all_rows_ttl_window (st st1 : process) (t1 t2 t3 : Z)
    (a1 a2 a3 : attempt) (rows : list row) :
  get_all_rows CACHE_TTL_SECONDS st t1 a1 = (Ok rows, st1) →
  (0 ≤ elapsed a1)%Z →
  (t2 < t1 + CACHE_TTL_SECONDS)%Z →
  (fetches (get_all_rows CACHE_TTL_SECONDS st1 t2 a2).2 ≤ S (fetches st))%nat
  ∧ (fetches st1 = S (fetches st) →
     get_all_rows CACHE_TTL_SECONDS st1 t2 a2 = (Ok rows, st1))
  ∧ ∃ expires : Z,
      cache st1 = Some (rows, expires)
      ∧ (fetches st1 = S (fetches st) →
         expires = (t1 + elapsed a1 + CACHE_TTL_SECONDS)%Z)
      ∧ ((expires ≤ t3)%Z →
         fetches (get_all_rows CACHE_TTL_SECONDS st1 t3 a3).2 = S (fetches st1)).
Proof.
  intros Hcall He Ht2.
  assert (Hexpired : ∀ expires, cache st1 = Some (rows, expires) → (expires ≤ t3)%Z →
    fetches (get_all_rows CACHE_TTL_SECONDS st1 t3 a3).2 = S (fetches st1)).
  { intros expires Hc Hle. rewrite get_all_rows_miss.
    - by destruct (fetch_rows a3).
    - apply cache_getitem_None. right. eauto. }
  destruct (cache_getitem (cache st) t1) as [v|] eqn:Hget.
  - rewrite (get_all_rows_hit _ _ _ _ Hget) in Hcall. injection Hcall as -> ->.
    apply cache_getitem_Some in Hget as (expires & Hc & _).
    split; [apply get_all_rows_fetches|]. split; [lia|].
    exists expires. split; [done|]. split; [lia|by apply Hexpired].
  - rewrite (get_all_rows_miss _ _ _ Hget) in Hcall.
    destruct (fetch_rows a1) as [v|e]; [|done]. injection Hcall as -> <-.
    set (st1 := {| cache := _; fetches := _ |}) in *.
    assert (Hhit : get_all_rows CACHE_TTL_SECONDS st1 t2 a2 = (Ok rows, st1)).
    { apply get_all_rows_hit, cache_getitem_Some. eexists. split; [done|lia]. }
    split; [by rewrite Hhit|]. split; [done|].
    eexists. split; [done|]. split; [done|]. intros Hle. by eapply Hexpired.
Qed.

(** C7: a call whose fetch fails leaves the cache as it was.  The
    rows of an item that has not expired are returned whatever the
    remote does; otherwise, and so when the cache is empty, the failure
    of the fetch is what the call raises, and nothing is stored. *)
Theorem failed_fetch_keeps_cache (st : process) (now : Z) (a : attempt) (e : exception) :
  fetch_rows a = Raise e →
  ∃ (res : result exception (list row)) (st' : process),
    get_all_rows CACHE_TTL_SECONDS st now a = (res, st')
    ∧ cache st' = cache st
    ∧ (∀ v, cache_getitem (cache st) now = Some v → res = Ok v ∧ st' = st)
    ∧ (cache_getitem (cache st) now = None → res = Raise e)
    ∧ (cache st = None → res = Raise e ∧ cache st' = None).
Proof.
  intros Hfail. unfold get_all_rows. rewrite Hfail.
  destruct (cache_getitem (cache st) now) as [v|] eqn:Hget.
  - exists (Ok v), st. split; [done|]. split; [done|]. split; [|split; [done|]].
    + by intros v' [= ->].
    + intros Hc. by rewrite Hc in Hget.
  - eexists _, _. split; [done|]. simpl. split; [done|]. split; [done|].
    split; [done|]. by intros ->.
Qed.

(** ** Failures of the row fetch at the handlers *)

(** What the body of [get_all_rows] raises is either what reading the
    sheet raised, or a [RuntimeError] that quotes, with [repr], what
    stopped the creation of the client. *)
Lemma fetch_rows_Raise (a : attempt) (e : exception) :
  fetch_rows a = Raise e →
  sheet_read a = Raise e
  ∨ ∃ cause, e = RuntimeError ("Failed to create gspread client: " +:+ exc_repr cause)
      ∧ (client_setup a = Some cause
         ∨ cause = RuntimeError "Missing GOOGLE_SERVICE_KEY environment variable").
Proof.
  unfold fetch_rows, get_gspread_client.
  destruct (provided (service_json a)); simpl.
  - destruct (client_setup a) as [cause|] eqn:Hc; simpl.
    + intros [= <-]. right. eauto.
    + by left.
  - intros [= <-]. right.
    exists (RuntimeError "Missing GOOGLE_SERVICE_KEY environment variable"). eauto.
Qed.

(** C8: when the row fetch raises [e], both handlers raise the HTTP
    error 500 whose detail is ["Failed to read sheet: "] followed by
    [str(e)], so the detail contains the text of [e]; the exception
    itself does not leave the handler. *)
Theorem fetch_failure_is_500 (dog_name owner_name : option string) (dog_id : string)
    (st st' : process) (now : Z) (a : attempt) (e : exception) :
  get_all_rows CACHE_TTL_SECONDS st now a = (Raise e, st') →
  let detail := "Failed to read sheet: " +:+ exc_str e in
  get_dogs CACHE_TTL_SECONDS dog_name owner_name st now a =
    (Raise (HTTPException 500 detail), st')
  ∧ get_dog CACHE_TTL_SECONDS dog_id st now a = (Raise (HTTPException 500 detail), st')
  ∧ str_in (exc_str e) detail = true
  ∧ fetch_rows a = Raise e
  ∧ (∀ cause, e = RuntimeError ("Failed to create gspread client: " +:+ exc_repr cause) →
       str_in (exc_repr cause) detail = true).
Proof.
  intros Hfail detail. unfold get_dogs, get_dog. rewrite Hfail.
  split; [done|]. split; [done|]. split; [apply str_in_suffix|]. split.
  - revert Hfail. unfold get_all_rows.
    destruct (cache_getitem (cache st) now); [done|].
    destruct (fetch_rows a); [done|]. by intros [= -> _].
  - intros cause ->. eapply str_in_trans; [|apply str_in_suffix]. apply str_in_suffix.
Qed.

End Handlers.

(** ** A numeric [dog_id] cell *)

(** C9 fails on the code: a row whose [dog_id] cell holds the number 5
    is mapped to a profile whose [dog_id] is that number, not a string. *)
Theorem dog_id_numeric_cell (idx : Z) :
  getitem (map_row_to_dog {[ "dog_id" := VInt 5 ]} idx) "dog_id" = Ok (Atom (VInt 5))
  ∧ is_str (VInt 5) = false.
Proof.
  split; [|done].
  change (getitem (map_row_to_dog {[ "dog_id" := VInt 5 ]} idx) "dog_id")
    with (@Ok raised _ (Atom (py_or (row_get {[ "dog_id" := VInt 5 ]} "dog_id")
                                    (VStr (str_int idx))))).
  by rewrite (row_get_present _ _ (VInt 5)) by apply lookup_singleton_eq.
Qed.

End Properties.

(** ** The properties on concrete sheets *)

Section Examples.
#[local] Existing Instance ascii_runtime.

Abbreviation pyval := (pyval float).
Abbreviation row := (row float).
Abbreviation entry := (entry float).
Abbreviation profile := (profile float).
Abbreviation attempt := (attempt float).
Abbreviation TTLCache := (TTLCache float).
Abbreviation process := (process float).

(** The filter [Rex] keeps the dog called [T-Rex Jr] and the one called
    [Rexy], in the order of the rows. *)
Example get_dogs_rex :
  get_dogs 30 (Some "Rex") None fresh 0 (sheet kennel) =
    (Ok [map_row_to_dog rex 1; map_row_to_dog rexy 3],
     warm).
Proof. vm_compute. reflexivity. Qed.

Example get_dogs_rex_jane :
  (get_dogs 30 (Some "rex") (Some "jane") fresh 0 (sheet kennel)).1 =
    Ok [map_row_to_dog rex 1].
Proof. vm_compute. reflexivity. Qed.

Example get_dogs_empty_sheet dog_id :
  (get_dogs 30 None None fresh 0 (sheet [])).1 = Ok []
  ∧ (get_dog 30 dog_id fresh 0 (sheet [])).1 = Raise (HTTPException 404 "Dog not found").
Proof. split; reflexivity. Qed.

Example map_row_to_dog_position_3 :
  getitem (map_row_to_dog {[ "dog_id" := VStr "" ]} 3) "dog_id" = Ok (Atom (VStr "3")).
Proof. vm_compute. reflexivity. Qed.

(** C3 fails on the code: with the filter [dog_name=1] and a sheet
    whose only dog has the name cell 123, [get_dogs] returns no list: the
    call of [lower] on the number raises an [AttributeError]. *)
Theorem get_dogs_numeric_name_raises :
  get_dogs 30 (Some "1") None fresh 0 (sheet [numbered]) =
    (Raise (AttributeError "'int' object has no attribute 'lower'"),
     {| cache := Some ([numbered], 31%Z); fetches := 1 |}).
Proof. vm_compute. reflexivity. Qed.

Lemma fresh_sheet (rows : list row) :
  get_all_rows 30 fresh 0 (sheet rows) =
    (Ok rows, {| cache := Some (rows, 31%Z); fetches := 1 |}).
Proof. reflexivity. Qed.

Lemma filters_intersect_commute_idempotent_witness :
  get_dogs_loop (Some "rex") None 1 kennel [] =
    Ok [map_row_to_dog rex 1; map_row_to_dog rexy 3]
  ∧ get_dogs_loop None (Some "jane") 1 kennel [] =
      Ok [map_row_to_dog rex 1; map_row_to_dog bella 2]
  ∧ get_dogs_loop (Some "rex") (Some "jane") 1 kennel [] =
      Ok (list_intersection [map_row_to_dog rex 1; map_row_to_dog rexy 3]
                            [map_row_to_dog rex 1; map_row_to_dog bella 2]).
Proof.
  split; [vm_compute; reflexivity|]. split; [vm_compute; reflexivity|].
  apply (filters_intersect_commute_idempotent (Some "rex") (Some "jane") kennel);
    vm_compute; reflexivity.
Defined.

Lemma get_dog_first_match_witness :
  get_all_rows 30 fresh 0 (sheet kennel) =
    (Ok kennel, warm)
  ∧ ((∃ (i : nat) (r : row),
        kennel !! i = Some r
        ∧ profile_id_str (map_row_to_dog r (1 + Z.of_nat i)) = Some "5"
        ∧ (∀ (j : nat) (r' : row), (j < i)%nat → kennel !! j = Some r' →
             profile_id_str (map_row_to_dog r' (1 + Z.of_nat j)) ≠ Some "5")
        ∧ get_dog 30 "5" fresh 0 (sheet kennel) =
            (Ok (map_row_to_dog r (1 + Z.of_nat i)),
             warm))
     ∨ ((∀ (j : nat) (r' : row), kennel !! j = Some r' →
           profile_id_str (map_row_to_dog r' (1 + Z.of_nat j)) ≠ Some "5")
        ∧ get_dog 30 "5" fresh 0 (sheet kennel) =
            (Raise (HTTPException 404 "Dog not found"),
             warm))).
Proof.
  split; [reflexivity|].
  apply (get_dog_first_match 30 "5" fresh _ 0 (sheet kennel) kennel). reflexivity.
Defined.

(** The first of two rows that answer to [5] is the one returned. *)
Example get_dog_5 :
  (get_dog 30 "5" fresh 0 (sheet kennel)).1 = Ok (map_row_to_dog bella 2).
Proof. vm_compute. reflexivity. Qed.

Example get_dog_is_exact :
  (get_dog 30 "0" fresh 0 (sheet kennel)).1 = Raise (HTTPException 404 "Dog not found")
  ∧ (get_dog 30 "3" fresh 0 (sheet kennel)).1 = Raise (HTTPException 404 "Dog not found")
  ∧ (get_dog 30 "1" fresh 0 (sheet kennel)).1 = Ok (map_row_to_dog rex 1).
Proof. repeat split; vm_compute; reflexivity. Qed.

Lemma get_dog_coerces_row_id_witness :
  get_all_rows 30 fresh 0 (sheet kennel) =
    (Ok kennel, warm)
  ∧ kennel !! 1%nat = Some bella
  ∧ bella !! "dog_id" = Some (VInt 5)
  ∧ truthy (VInt 5) = true
  ∧ is_str (VInt 5) = false
  ∧ (get_dog 30 "5" fresh 0 (sheet kennel) =
       (Ok (map_row_to_dog bella (1 + Z.of_nat 1)),
        warm)
     ↔ "5" = py_str (VInt 5))
  ∧ getitem (map_row_to_dog bella (1 + Z.of_nat 1)) "dog_id" = Ok (Atom (VInt 5)).
Proof.
  split; [reflexivity|]. split; [reflexivity|]. split; [vm_compute; reflexivity|].
  split; [reflexivity|]. split; [reflexivity|].
  apply (get_dog_coerces_row_id 30 "5" fresh _ 0 (sheet kennel) kennel 1 bella (VInt 5));
    [reflexivity | reflexivity | vm_compute; reflexivity | reflexivity | reflexivity |].
  intros [|j] r' Hj; [|lia]. intros [= <-]. vm_compute. discriminate.
Defined.

(** C10 as it is written fails when two rows carry the same
    identifier: on the sheet [ace; bee] the second row holds the truthy
    number 5 and the request is [str(5)], yet the lookup returns the
    profile of the first row, which is a different profile. *)
Lemma get_dog_duplicate_id_counterexample :
  get_all_rows 30 fresh 0 (sheet [ace; bee]) =
    (Ok [ace; bee], {| cache := Some ([ace; bee], 31%Z); fetches := 1 |})
  ∧ [ace; bee] !! 1%nat = Some bee
  ∧ bee !! "dog_id" = Some (VInt 5)
  ∧ truthy (VInt 5) = true
  ∧ is_str (VInt 5) = false
  ∧ "5" = py_str (VInt 5)
  ∧ get_dog 30 "5" fresh 0 (sheet [ace; bee]) =
      (Ok (map_row_to_dog ace 1), {| cache := Some ([ace; bee], 31%Z); fetches := 1 |})
  ∧ ¬ (get_dog 30 "5" fresh 0 (sheet [ace; bee]) =
         (Ok (map_row_to_dog bee (1 + Z.of_nat 1)),
          {| cache := Some ([ace; bee], 31%Z); fetches := 1 |})
       ↔ "5" = py_str (VInt 5)).
Proof.
  assert (Hfirst : get_dog 30 "5" fresh 0 (sheet [ace; bee]) =
    (Ok (map_row_to_dog ace 1), {| cache := Some ([ace; bee], 31%Z); fetches := 1 |})).
  { rewrite (get_dog_rows 30 _ fresh _ 0 (sheet [ace; bee]) [ace; bee] eq_refl).
    f_equal; vm_compute; reflexivity. }
  split; [reflexivity|]. split; [reflexivity|]. split; [vm_compute; reflexivity|].
  split; [reflexivity|]. split; [reflexivity|]. split; [reflexivity|].
  split; [exact Hfirst|].
  intros [_ Hback]. specialize (Hback eq_refl). rewrite Hfirst in Hback.
  injection Hback as Hsame. vm_compute in Hsame. discriminate Hsame.
Qed.

Lemma get_all_rows_ttl_window_witness :
  get_all_rows 30 fresh 0 (sheet kennel) = (Ok kennel, warm)
  ∧ (0 ≤ elapsed (sheet kennel))%Z
  ∧ (10 < 0 + 30)%Z
  ∧ (fetches (get_all_rows 30 warm 10 revoked).2 ≤ S (fetches fresh))%nat
  ∧ (fetches warm = S (fetches fresh) →
     get_all_rows 30 warm 10 revoked = (Ok kennel, warm))
  ∧ ∃ expires : Z,
      cache warm = Some (kennel, expires)
      ∧ (fetches warm = S (fetches fresh) →
         expires = (0 + elapsed (sheet kennel) + 30)%Z)
      ∧ ((expires ≤ 31)%Z →
         fetches (get_all_rows 30 warm 31 (sheet [])).2 = S (fetches warm)).
Proof.
  split; [reflexivity|]. split; [simpl; lia|]. split; [lia|].
  apply (get_all_rows_ttl_window 30 fresh warm 0 10 31 (sheet kennel) revoked (sheet []) kennel);
    [reflexivity | simpl; lia | lia].
Defined.

Lemma failed_fetch_keeps_cache_witness :
  fetch_rows revoked =
    Raise (LibraryError "invalid_grant: Token has been revoked"
             "RefreshError('invalid_grant: Token has been revoked')")
  ∧ ∃ (res : result exception (list row)) (st' : process),
      get_all_rows 30 warm 40 revoked = (res, st')
      ∧ cache st' = Some (kennel, 31%Z).
Proof.
  split; [reflexivity|].
  destruct (failed_fetch_keeps_cache 30 warm
              40 revoked _ eq_refl) as (res & st' & Hcall & Hcache & _).
  exists res, st'. split; [exact Hcall | exact Hcache].
Defined.

Lemma fetch_failure_is_500_witness :
  get_all_rows 30 fresh 0 revoked =
    (Raise (LibraryError "invalid_grant: Token has been revoked"
              "RefreshError('invalid_grant: Token has been revoked')"),
     {| cache := None; fetches := 1 |})
  ∧ get_dogs 30 (Some "rex") None fresh 0 revoked =
      (Raise (HTTPException 500
                "Failed to read sheet: invalid_grant: Token has been revoked"),
       {| cache := None; fetches := 1 |}).
Proof.
  split; [reflexivity|].
  exact (proj1 (fetch_failure_is_500 30 (Some "rex") None "7" fresh _ 0 revoked _ eq_refl)).
Defined.

(** A failed fetch stores nothing: the next call fetches again. *)
Example failed_fetch_is_not_cached :
  fetches (get_all_rows 30 (get_all_rows 30 fresh 0 revoked).2 1 (sheet kennel)).2 = 2%nat
  ∧ (get_all_rows 30 (get_all_rows 30 fresh 0 revoked).2 1 (sheet kennel)).1 = Ok kennel.
Proof. split; reflexivity. Qed.

(** A stale item is not served after a failed fetch: the caller gets
    the failure. *)
Example failed_fetch_after_expiry :
  (get_all_rows 30 warm 40 revoked).1 =
    Raise (LibraryError "invalid_grant: Token has been revoked"
             "RefreshError('invalid_grant: Token has been revoked')").
Proof. reflexivity. Qed.

End Examples.

(** * Further properties of the program *)

Lemma str_int_inj (m n : Z) : str_int m = str_int n → m = n.
Proof.
  intros Heq. pose proof (str_int_decimal m) as Hm.
  rewrite Heq, str_int_decimal in Hm. by injection Hm.
Qed.

Lemma str_int_nonempty (n : Z) : str_int n ≠ "".
Proof.
  unfold str_int. destruct n as [|p|p]; simpl; [done| |done].
  unfold NilEmpty.string_of_int. pose proof (DecimalPos.Unsigned.to_uint_nonnil p) as Hp.
  by destruct (Pos.to_uint p).
Qed.

Lemma filter_sublist {A} (f : A → bool) (l : list A) : List.filter f l `sublist_of` l.
Proof.
  induction l as [|x l IH]; simpl; [constructor|].
  destruct (f x); by constructor.
Qed.

Lemma filter_sublist_impl {A} (f g : A → bool) (l : list A) :
  Forall (λ x, f x = true → g x = true) l →
  List.filter f l `sublist_of` List.filter g l.
Proof.
  induction 1 as [|x l Hx _ IH]; simpl; [constructor|].
  destruct (f x); [rewrite Hx by done; by constructor|].
  destruct (g x); [by constructor|done].
Qed.

Section Further.
Context `{PyRuntime}.

Abbreviation pyval := (pyval float).
Abbreviation row := (row float).
Abbreviation entry := (entry float).
Abbreviation profile := (profile float).
Abbreviation attempt := (attempt float).
Abbreviation TTLCache := (TTLCache float).
Abbreviation process := (process float).

Lemma row_get_agree (r1 r2 : row) (h : string) :
  r1 !! h = r2 !! h → row_get r1 h = row_get r2 h.
Proof. unfold row_get. by intros ->. Qed.

(** X1: the profile depends on the row only through the eighteen
    headers of the mapping: two rows that agree on them are mapped to
    the same profile, whatever other columns they have. *)
Theorem map_row_to_dog_only_headers (r1 r2 : row) (idx : Z) :
  (∀ h, h ∈ headers → r1 !! h = r2 !! h) →
  map_row_to_dog r1 idx = map_row_to_dog r2 idx.
Proof.
  intros Hagree.
  assert (Hget : ∀ h, h ∈ headers → row_get r1 h = row_get r2 h).
  { intros h Hh. by apply row_get_agree, Hagree. }
  unfold map_row_to_dog.
  rewrite !Hget; [done|..]; apply list_elem_of_In; vm_compute; tauto.
Qed.

(** X2: the [dog_id] of a profile is always truthy: it is never [None],
    the empty string or zero, since a cell that is one of these gives
    way to the position, whose decimal string is not empty. *)
Theorem map_row_to_dog_id_truthy (r : row) (idx : Z) :
  ∃ id : pyval,
    getitem (map_row_to_dog r idx) "dog_id" = Ok (Atom id)
    ∧ truthy id = true
    ∧ id ≠ VNone ∧ id ≠ VStr "" ∧ id ≠ VInt 0.
Proof.
  exists (py_or (row_get r "dog_id") (VStr (str_int idx))).
  split; [reflexivity|].
  assert (Ht : truthy (py_or (row_get r "dog_id") (VStr (str_int idx))) = true).
  { unfold py_or. destruct (truthy (row_get r "dog_id")) eqn:Hcell; [done|].
    simpl. destruct (String.eqb_spec (str_int idx) "") as [Hempty|_]; [|done].
    by destruct (str_int_nonempty idx). }
  split; [done|]. repeat split; intros Hid; by rewrite Hid in Ht.
Qed.

(** X3: the position matters only to a row without an identifier of
    its own: the profiles of one row at two positions are equal exactly
    when the positions are equal or the [dog_id] cell is truthy.  So rows
    without their own identifier get pairwise different [dog_id]s. *)
Theorem map_row_to_dog_position (r : row) (i j : Z) :
  map_row_to_dog r i = map_row_to_dog r j
  ↔ i = j ∨ truthy (row_get r "dog_id") = true.
Proof.
  split.
  - intros Heq. injection Heq as Hid. unfold py_or in Hid.
    destruct (truthy (row_get r "dog_id")); [by right|].
    left. injection Hid as Hstr. by apply str_int_inj.
  - intros [->|Ht]; [done|]. unfold map_row_to_dog, py_or. by rewrite Ht.
Qed.

(** ** The filtering loop on mapped profiles *)

Lemma lower_name (v : pyval) :
  lower (py_or v (VStr "")) =
    if numeric_name v
    then Raise (AttributeError
           ("'" +:+ type_name v +:+ "' object has no attribute 'lower'"))
    else Ok (str_lower (default "" (name_text v))).
Proof.
  unfold numeric_name, name_text, py_or.
  destruct (truthy v) eqn:Ht; [|done]. by destruct v.
Qed.

Lemma name_mismatch_dog (q : option string) (r : row) (idx : Z) :
  name_mismatch q (map_row_to_dog r idx) "dog" =
    match provided q with
    | None => Ok false
    | Some s =>
        low <- lower (py_or (row_get r "Name") (VStr "")) ;;
        Ok (negb (str_in (str_lower s) low))
    end.
Proof. reflexivity. Qed.

Lemma name_mismatch_owner (q : option string) (r : row) (idx : Z) :
  name_mismatch q (map_row_to_dog r idx) "owner" =
    match provided q with
    | None => Ok false
    | Some s =>
        low <- lower (py_or (row_get r "Pet owner's name") (VStr "")) ;;
        Ok (negb (str_in (str_lower s) low))
    end.
Proof. reflexivity. Qed.

Lemma keeps_unfiltered (d o : option string) (p : profile) :
  provided d = None → provided o = None → keeps d o p = Ok true.
Proof. unfold keeps, name_mismatch. by intros -> ->. Qed.

Lemma select_unfiltered (d o : option string) (ps : list profile) :
  provided d = None → provided o = None → select d o ps = Ok ps.
Proof.
  intros Hd Ho. induction ps as [|p ps IH]; simpl; [done|].
  by rewrite (keeps_unfiltered d o p Hd Ho), IH.
Qed.

Lemma mapped_length (rows : list row) (idx : Z) : length (mapped idx rows) = length rows.
Proof. revert idx. induction rows as [|r rows IH]; intros idx; simpl; [done|]. by rewrite IH. Qed.

Lemma elem_of_mapped (rows : list row) (idx : Z) (p : profile) :
  p ∈ mapped idx rows ↔
    ∃ (i : nat) (r : row), rows !! i = Some r ∧ p = map_row_to_dog r (idx + Z.of_nat i).
Proof.
  rewrite list_elem_of_lookup. split.
  - intros [i Hi]. rewrite mapped_lookup in Hi.
    destruct (rows !! i) as [r|] eqn:Hr; simplify_eq/=. by exists i, r.
  - intros (i & r & Hr & ->). exists i. by rewrite mapped_lookup, Hr.
Qed.

(** What makes the loop body raise on the profile of a row. *)
Lemma keeps_mapped_Raise (d o : option string) (r : row) (idx : Z) (e : raised) :
  keeps d o (map_row_to_dog r idx) = Raise e →
  ∃ msg, e = AttributeError msg
    ∧ ((is_Some (provided d) ∧ numeric_name (row_get r "Name") = true)
       ∨ (is_Some (provided o) ∧ numeric_name (row_get r "Pet owner's name") = true)).
Proof.
  unfold keeps. rewrite name_mismatch_dog, name_mismatch_owner, !lower_name.
  destruct (provided d) as [qd|]; simpl.
  - destruct (numeric_name (row_get r "Name")) eqn:Hn; simpl.
    + intros [= <-]. eexists. split; [done|]. left. eauto.
    + destruct (negb _); simpl; [done|].
      destruct (provided o) as [qo|]; simpl; [|done].
      destruct (numeric_name (row_get r "Pet owner's name")) eqn:Hno; simpl.
      * intros [= <-]. eexists. split; [done|]. right. eauto.
      * by destruct (negb _).
  - destruct (provided o) as [qo|]; simpl; [|done].
    destruct (numeric_name (row_get r "Pet owner's name")) eqn:Hno; simpl.
    + intros [= <-]. eexists. split; [done|]. right. eauto.
    + by destruct (negb _).
Qed.

Lemma get_dogs_loop_Raise (d o : option string) (rows : list row) :
  ∀ (idx : Z) (acc : list profile) (e : raised),
    get_dogs_loop d o idx rows acc = Raise e →
    ∃ (r : row) (msg : string),
      r ∈ rows ∧ e = AttributeError msg
      ∧ ((is_Some (provided d) ∧ numeric_name (row_get r "Name") = true)
         ∨ (is_Some (provided o) ∧ numeric_name (row_get r "Pet owner's name") = true)).
Proof.
  induction rows as [|r rest IH]; intros idx acc e; simpl; [done|].
  destruct (keeps d o (map_row_to_dog r idx)) as [keep|e'] eqn:Hk; simpl.
  - intros Hrest. destruct (IH _ _ _ Hrest) as (r' & msg & Hin & He & Hwhy).
    exists r', msg. split; [by right|done].
  - intros [= <-]. destruct (keeps_mapped_Raise _ _ _ _ _ Hk) as (msg & He & Hwhy).
    exists r, msg. split; [by left|done].
Qed.

Lemma name_text_not_numeric (v : pyval) (n : string) :
  name_text v = Some n → numeric_name v = false.
Proof.
  unfold name_text, numeric_name, py_or.
  destruct (truthy v); [|done]. by destruct v.
Qed.

Lemma keeps_dog_mismatch (d o : option string) (q : string) (r : row) (idx : Z) (n : string) :
  provided d = Some q →
  name_text (row_get r "Name") = Some n →
  str_in (str_lower q) (str_lower n) = false →
  keeps d o (map_row_to_dog r idx) = Ok false.
Proof.
  intros Hd Hn Hout. unfold keeps.
  rewrite name_mismatch_dog, Hd, lower_name, (name_text_not_numeric _ _ Hn), Hn.
  simpl. by rewrite Hout.
Qed.

Lemma name_mismatch_lower (q : string) (p : profile) (section : string) :
  (∀ s, str_lower (str_lower s) = str_lower s) →
  (∀ s, str_lower s = "" ↔ s = "") →
  name_mismatch (Some (str_lower q)) p section = name_mismatch (Some q) p section.
Proof.
  intros Hidem Hempty. unfold name_mismatch, provided.
  destruct (String.eqb_spec q "") as [->|Hq].
  - by rewrite (proj2 (Hempty "") eq_refl).
  - destruct (String.eqb_spec (str_lower q) "") as [Hl|_].
    + destruct Hq. by apply Hempty.
    + by rewrite Hidem.
Qed.

Lemma keeps_lower (qd qo : string) (p : profile) :
  (∀ s, str_lower (str_lower s) = str_lower s) →
  (∀ s, str_lower s = "" ↔ s = "") →
  keeps (Some (str_lower qd)) (Some (str_lower qo)) p = keeps (Some qd) (Some qo) p.
Proof. intros Hidem Hempty. unfold keeps. by rewrite !name_mismatch_lower. Qed.

Lemma name_mismatch_narrow (q1 q2 : string) (p : profile) (section : string) :
  q2 ≠ "" →
  str_in (str_lower q1) (str_lower q2) = true →
  name_mismatch (Some q2) p section = Ok false →
  name_mismatch (Some q1) p section = Ok false.
Proof.
  intros Hq2 Hsub. unfold name_mismatch, provided.
  destruct (String.eqb_spec q2 "") as [|_]; [done|].
  destruct (getitem2 p section "name") as [name|]; simpl; [|done].
  destruct (lower (py_or name (VStr ""))) as [low|]; simpl; [|done].
  intros [= Hin]. apply negb_false_iff in Hin.
  destruct (String.eqb q1 ""); [done|].
  by rewrite (str_in_trans _ _ _ Hsub Hin).
Qed.

Lemma keeps_narrow (q1 q2 : string) (o : option string) (p : profile) :
  q2 ≠ "" →
  str_in (str_lower q1) (str_lower q2) = true →
  keeps (Some q2) o p = Ok true → keeps (Some q1) o p = Ok true.
Proof.
  intros Hq2 Hsub. unfold keeps.
  destruct (name_mismatch (Some q2) p "dog") as [[|]|] eqn:Hm; simpl; try done.
  by rewrite (name_mismatch_narrow _ _ _ _ Hq2 Hsub Hm).
Qed.

Section FurtherHandlers.
Variable CACHE_TTL_SECONDS : Z.

(** X4: without filters, and so with empty ones, [get_dogs] returns
    the profile of every row, in the order of the rows, whatever the
    cells hold. *)
Theorem get_dogs_unfiltered (d o : option string) (st st' : process) (now : Z)
    (a : attempt) (rows : list row) :
  provided d = None →
  provided o = None →
  get_all_rows CACHE_TTL_SECONDS st now a = (Ok rows, st') →
  get_dogs CACHE_TTL_SECONDS d o st now a = (Ok (mapped 1 rows), st')
  ∧ length (mapped 1 rows) = length rows
  ∧ ∀ (i : nat) (r : row), rows !! i = Some r →
      mapped 1 rows !! i = Some (map_row_to_dog r (1 + Z.of_nat i)).
Proof.
  intros Hd Ho Hrows. rewrite (get_dogs_rows _ _ _ _ _ _ _ _ Hrows).
  rewrite get_dogs_loop_nil_acc, (select_unfiltered _ _ _ Hd Ho).
  split; [done|]. split; [apply mapped_length|].
  intros i r Hr. by rewrite mapped_lookup, Hr.
Qed.

(** X5: whatever the filters, the list [get_dogs] returns is a sublist
    of the profiles of all rows: it keeps their order, is no longer than
    the sheet, and every profile in it is the profile of a row at that
    row's position. *)
Theorem get_dogs_sublist (d o : option string) (st st' : process) (now : Z)
    (a : attempt) (rows : list row) (ps : list profile) :
  get_all_rows CACHE_TTL_SECONDS st now a = (Ok rows, st') →
  get_dogs CACHE_TTL_SECONDS d o st now a = (Ok ps, st') →
  ps `sublist_of` mapped 1 rows
  ∧ (length ps ≤ length rows)%nat
  ∧ ∀ p, p ∈ ps →
      ∃ (i : nat) (r : row), rows !! i = Some r ∧ p = map_row_to_dog r (1 + Z.of_nat i).
Proof.
  intros Hrows. rewrite (get_dogs_rows _ _ _ _ _ _ _ _ Hrows), get_dogs_loop_nil_acc.
  intros [= Hsel]. apply select_Ok_inv in Hsel as [_ ->].
  pose proof (filter_sublist (passes d o) (mapped 1 rows)) as Hsub.
  split; [done|]. split.
  - rewrite <- (mapped_length rows 1). by apply sublist_length.
  - intros p Hp. apply elem_of_mapped. by eapply elem_of_sublist.
Qed.

(** X6: the only errors [get_dogs] raises are the HTTP error 500, when
    the rows cannot be read, and an [AttributeError], when a filter is
    given and the name cell it looks at holds a truthy value that is not
    a string.  It raises neither 404 nor a [KeyError] or [TypeError]. *)
Theorem get_dogs_errors (d o : option string) (st st' : process) (now : Z)
    (a : attempt) (e : raised) :
  get_dogs CACHE_TTL_SECONDS d o st now a = (Raise e, st') →
  (∃ e0, get_all_rows CACHE_TTL_SECONDS st now a = (Raise e0, st')
     ∧ e = HTTPException 500 ("Failed to read sheet: " +:+ exc_str e0))
  ∨ (∃ (rows : list row) (r : row) (msg : string),
       get_all_rows CACHE_TTL_SECONDS st now a = (Ok rows, st')
       ∧ r ∈ rows ∧ e = AttributeError msg
       ∧ ((is_Some (provided d) ∧ numeric_name (row_get r "Name") = true)
          ∨ (is_Some (provided o)
             ∧ numeric_name (row_get r "Pet owner's name") = true))).
Proof.
  unfold get_dogs.
  destruct (get_all_rows CACHE_TTL_SECONDS st now a) as [[rows|e0] st1].
  - intros [= Hloop <-]. right.
    destruct (get_dogs_loop_Raise _ _ _ _ _ _ Hloop) as (r & msg & Hin & He & Hwhy).
    by exists rows, r, msg.
  - intros [= <- <-]. left. by exists e0.
Qed.

(** X7: the owner filter is only evaluated on the rows that pass the
    dog-name filter.  When no row passes the dog-name filter, [get_dogs]
    returns the empty list whatever the owner filter and the owner cells
    are, numbers included. *)
Theorem get_dogs_skips_before_owner (d o : option string) (q : string)
    (st st' : process) (now : Z) (a : attempt) (rows : list row) :
  provided d = Some q →
  Forall (λ r, ∃ n, name_text (row_get r "Name") = Some n
                    ∧ str_in (str_lower q) (str_lower n) = false) rows →
  get_all_rows CACHE_TTL_SECONDS st now a = (Ok rows, st') →
  get_dogs CACHE_TTL_SECONDS d o st now a = (Ok [], st').
Proof.
  intros Hd Hall Hrows. rewrite (get_dogs_rows _ _ _ _ _ _ _ _ Hrows). f_equal.
  rewrite get_dogs_loop_nil_acc. clear Hrows. generalize 1%Z as idx.
  induction Hall as [|r rest (n & Hn & Hout) _ IH]; intros idx; [done|].
  cbn [mapped select].
  by rewrite (keeps_dog_mismatch d o q r idx n Hd Hn Hout), IH.
Qed.

(** X8: the filters do not depend on the case of the query: when
    [str.lower] is idempotent and maps only the empty string to the
    empty string, a query and its lower-cased form give the same
    response. *)
Theorem get_dogs_query_case (qd qo : string) (st : process) (now : Z) (a : attempt) :
  (∀ s, str_lower (str_lower s) = str_lower s) →
  (∀ s, str_lower s = "" ↔ s = "") →
  get_dogs CACHE_TTL_SECONDS (Some (str_lower qd)) (Some (str_lower qo)) st now a =
    get_dogs CACHE_TTL_SECONDS (Some qd) (Some qo) st now a.
Proof.
  intros Hidem Hempty. unfold get_dogs.
  destruct (get_all_rows CACHE_TTL_SECONDS st now a) as [[rows|e] st']; [|done].
  f_equal. generalize 1%Z as idx. generalize (@nil profile) as acc.
  induction rows as [|r rest IH]; intros acc idx; [done|].
  cbn [get_dogs_loop]. rewrite (keeps_lower qd qo _ Hidem Hempty).
  destruct (keeps (Some qd) (Some qo) (map_row_to_dog r idx)) as [keep|e]; simpl;
    [apply IH|done].
Qed.

(** X9: a longer query narrows the result: when the dog-name query [q1]
    occurs, case-insensitively, in the non-empty query [q2], the list
    returned for [q2] is a sublist of the list returned for [q1] on the
    same rows and with the same owner filter. *)
Theorem get_dogs_narrower_query (q1 q2 : string) (o : option string)
    (rows : list row) (ps1 ps2 : list profile) :
  q2 ≠ "" →
  str_in (str_lower q1) (str_lower q2) = true →
  get_dogs_loop (Some q1) o 1 rows [] = Ok ps1 →
  get_dogs_loop (Some q2) o 1 rows [] = Ok ps2 →
  ps2 `sublist_of` ps1.
Proof.
  intros Hq2 Hsub. rewrite !get_dogs_loop_nil_acc. intros H1 H2.
  apply select_Ok_inv in H1 as [_ ->]. apply select_Ok_inv in H2 as [_ ->].
  apply filter_sublist_impl, Forall_forall. intros p _. unfold passes.
  destruct (keeps (Some q2) o p) as [[|]|] eqn:Hk; try done.
  by rewrite (keeps_narrow _ _ _ _ Hq2 Hsub Hk).
Qed.

(** ** Lookups against the listing *)

(** X10: what [get_dog] returns is one of the profiles the unfiltered
    [get_dogs] returns on the same state, and its identifier, as a
    string, is the requested one. *)
Theorem get_dog_in_listing (dog_id : string) (st st' : process) (now : Z)
    (a : attempt) (p : profile) :
  get_dog CACHE_TTL_SECONDS dog_id st now a = (Ok p, st') →
  ∃ ps : list profile,
    get_dogs CACHE_TTL_SECONDS None None st now a = (Ok ps, st')
    ∧ p ∈ ps
    ∧ profile_id_str p = Some dog_id.
Proof.
  unfold get_dog, get_dogs.
  destruct (get_all_rows CACHE_TTL_SECONDS st now a) as [[rows|e] st1]; [|done].
  intros [= Hloop <-]. exists (mapped 1 rows).
  rewrite get_dogs_loop_nil_acc, select_unfiltered by done. split; [done|].
  apply get_dog_loop_Ok in Hloop as (i & r & Hr & -> & Hid).
  split; [|done]. apply elem_of_mapped. eauto.
Qed.

(** X11: every profile of the unfiltered listing can be looked up: the
    lookup of its identifier, written as a string, returns a listed
    profile with that same identifier, never the 404 error. *)
Theorem listed_id_is_found (st st' : process) (now : Z) (a : attempt)
    (ps : list profile) (p : profile) :
  get_dogs CACHE_TTL_SECONDS None None st now a = (Ok ps, st') →
  p ∈ ps →
  ∃ (s : string) (q : profile),
    profile_id_str p = Some s
    ∧ get_dog CACHE_TTL_SECONDS s st now a = (Ok q, st')
    ∧ profile_id_str q = Some s
    ∧ q ∈ ps.
Proof.
  unfold get_dog, get_dogs.
  destruct (get_all_rows CACHE_TTL_SECONDS st now a) as [[rows|e] st1]; [|done].
  rewrite get_dogs_loop_nil_acc, select_unfiltered by done.
  intros [= <- <-] Hp. apply elem_of_mapped in Hp as (i & r & Hr & ->).
  set (s := py_str (py_or (row_get r "dog_id") (VStr (str_int (1 + Z.of_nat i))))).
  destruct (get_dog_loop_first s rows 1)
    as [(k & r' & Hk & Hid & _ & Hres)|[Hnone _]].
  - exists s, (map_row_to_dog r' (1 + Z.of_nat k)). rewrite Hres.
    split; [apply profile_id_str_mapped|]. split; [done|]. split; [done|].
    apply elem_of_mapped. eauto.
  - destruct (Hnone i r Hr). apply profile_id_str_mapped.
Qed.

(** X12: on a sheet where no row has a truthy [dog_id] cell, the rows
    are addressed by position: the decimal string of [k] finds the
    [k]-th row, and any other string finds nothing. *)
Theorem get_dog_by_position (st st' : process) (now : Z) (a : attempt)
    (rows : list row) :
  Forall (λ r, truthy (row_get r "dog_id") = false) rows →
  get_all_rows CACHE_TTL_SECONDS st now a = (Ok rows, st') →
  (∀ (i : nat) (r : row), rows !! i = Some r →
     get_dog CACHE_TTL_SECONDS (str_int (1 + Z.of_nat i)) st now a =
       (Ok (map_row_to_dog r (1 + Z.of_nat i)), st'))
  ∧ (∀ s : string,
       (∀ i : nat, (i < length rows)%nat → s ≠ str_int (1 + Z.of_nat i)) →
       get_dog CACHE_TTL_SECONDS s st now a =
         (Raise (HTTPException 404 "Dog not found"), st')).
Proof.
  intros Hfalsy Hrows.
  assert (Hid : ∀ (k : nat) (r : row), rows !! k = Some r →
    profile_id_str (map_row_to_dog r (1 + Z.of_nat k)) =
      Some (str_int (1 + Z.of_nat k))).
  { intros k r Hk. rewrite profile_id_str_mapped. unfold py_or.
    rewrite Forall_forall in Hfalsy.
    by rewrite (Hfalsy r) by (apply list_elem_of_lookup; eauto). }
  split.
  - intros i r Hr. rewrite (get_dog_rows _ _ _ _ _ _ _ Hrows). f_equal.
    destruct (get_dog_loop_first (str_int (1 + Z.of_nat i)) rows 1)
      as [(k & r' & Hk & Hmatch & _ & Hres)|[Hnone _]].
    + rewrite (Hid k r' Hk) in Hmatch. injection Hmatch as Hstr.
      apply str_int_inj in Hstr. assert (k = i) as -> by lia.
      rewrite Hres. congruence.
    + destruct (Hnone i r Hr). by apply Hid.
  - intros s Hs. rewrite (get_dog_rows _ _ _ _ _ _ _ Hrows). f_equal.
    destruct (get_dog_loop_first s rows 1)
      as [(k & r' & Hk & Hmatch & _ & _)|[_ Hres]]; [|done].
    rewrite (Hid k r' Hk) in Hmatch. injection Hmatch as <-.
    destruct (Hs k); [|done]. apply lookup_lt_is_Some. eauto.
Qed.

(** X13: [get_dog] raises nothing but the two HTTP errors: 404 when the
    rows were read and none has the requested identifier, 500 when the
    rows could not be read.  No cell of the sheet can make it raise
    another exception. *)
Theorem get_dog_errors (dog_id : string) (st st' : process) (now : Z)
    (a : attempt) (e : raised) :
  get_dog CACHE_TTL_SECONDS dog_id st now a = (Raise e, st') →
  (∃ rows : list row,
     get_all_rows CACHE_TTL_SECONDS st now a = (Ok rows, st')
     ∧ e = HTTPException 404 "Dog not found"
     ∧ ∀ (i : nat) (r : row), rows !! i = Some r →
         profile_id_str (map_row_to_dog r (1 + Z.of_nat i)) ≠ Some dog_id)
  ∨ (∃ e0 : exception,
       get_all_rows CACHE_TTL_SECONDS st now a = (Raise e0, st')
       ∧ e = HTTPException 500 ("Failed to read sheet: " +:+ exc_str e0)).
Proof.
  unfold get_dog.
  destruct (get_all_rows CACHE_TTL_SECONDS st now a) as [[rows|e0] st1].
  - intros [= Hloop <-]. left. exists rows. split; [done|].
    destruct (get_dog_loop_first dog_id rows 1)
      as [(k & r' & _ & _ & _ & Hres)|[Hnone Hres]]; rewrite Hres in Hloop; [done|].
    injection Hloop as <-. by split.
  - intros [= <- <-]. right. by exists e0.
Qed.

(** ** The cache over several calls *)

Lemma get_all_rows_fetched (st st1 : process) (now : Z) (a : attempt) (rows : list row) :
  get_all_rows CACHE_TTL_SECONDS st now a = (Ok rows, st1) →
  fetches st1 = S (fetches st) →
  st1 = {| cache := Some (rows, now + elapsed a + CACHE_TTL_SECONDS)%Z;
           fetches := S (fetches st) |}.
Proof.
  intros Hcall Hfetched.
  destruct (cache_getitem (cache st) now) as [v|] eqn:Hget.
  - rewrite (get_all_rows_hit _ _ _ _ _ Hget) in Hcall. injection Hcall as _ <-. lia.
  - rewrite (get_all_rows_miss _ _ _ _ Hget) in Hcall.
    destruct (fetch_rows a); [|done]. by injection Hcall as <- <-.
Qed.

(** X14: after a call that fetched rows, the next call is served from
    the cache exactly when it is made less than one TTL after the rows
    were stored: at the expiry itself, and later, it fetches again.  A
    call served from the cache returns the stored rows and leaves the
    state, and so the expiry, as it is. *)
Theorem cache_hit_iff_before_expiry (st st1 : process) (t1 t2 : Z)
    (a1 a2 : attempt) (rows : list row) :
  get_all_rows CACHE_TTL_SECONDS st t1 a1 = (Ok rows, st1) →
  fetches st1 = S (fetches st) →
  (fetches (get_all_rows CACHE_TTL_SECONDS st1 t2 a2).2 = fetches st1
     ↔ (t2 < t1 + elapsed a1 + CACHE_TTL_SECONDS)%Z)
  ∧ (get_all_rows CACHE_TTL_SECONDS st1 t2 a2 = (Ok rows, st1)
     ∨ fetches (get_all_rows CACHE_TTL_SECONDS st1 t2 a2).2 = S (fetches st1)).
Proof.
  intros Hcall Hfetched.
  rewrite (get_all_rows_fetched _ _ _ _ _ Hcall Hfetched). clear Hcall Hfetched.
  unfold get_all_rows at 1 2 3. simpl.
  destruct (Z.ltb_spec t2 (t1 + elapsed a1 + CACHE_TTL_SECONDS)); simpl.
  - split; [done|by left].
  - destruct (fetch_rows a2); simpl; (split; [split; lia|by right]).
Qed.

(** X15: every call made before the expiry of the cached item returns
    its rows without a fetch and leaves the state unchanged, however many
    calls there are and whatever the remote would answer; being served
    does not extend the life of the item. *)
Theorem calls_before_expiry (st : process) (rows : list row) (expires : Z)
    (calls : list (Z * attempt)) :
  cache st = Some (rows, expires) →
  Forall (λ c, (c.1 < expires)%Z) calls →
  get_all_rows_seq CACHE_TTL_SECONDS st calls = (replicate (length calls) (Ok rows), st).
Proof.
  intros Hcache. induction 1 as [|[now a] rest Hnow _ IH]; simpl; [done|].
  rewrite get_all_rows_hit with (v := rows).
  - by rewrite IH.
  - apply cache_getitem_Some. eauto.
Qed.

(** X16: a TTL of zero or less disables the cache: from a state whose
    item, if any, has expired, calls that follow each other on the
    clock each run a fetch. *)
Theorem nonpositive_ttl_always_fetches (calls : list (Z * attempt)) :
  ∀ (st : process) (t : Z),
    (CACHE_TTL_SECONDS ≤ 0)%Z →
    cache_getitem (cache st) t = None →
    in_order t calls →
    fetches (get_all_rows_seq CACHE_TTL_SECONDS st calls).2 =
      (fetches st + length calls)%nat.
Proof.
  induction calls as [|[now a] rest IH]; intros st t Httl Hstale Horder; simpl.
  - lia.
  - destruct Horder as (Hnow & Helapsed & Hrest).
    assert (Hmiss : cache_getitem (cache st) now = None).
    { apply cache_getitem_None. apply cache_getitem_None in Hstale
        as [?|(v & e & ? & ?)]; [by left|]. right. exists v, e. split; [done|lia]. }
    rewrite (get_all_rows_miss _ _ _ _ Hmiss).
    destruct (fetch_rows a) as [v|e].
    + set (st1 := {| cache := _; fetches := _ |}).
      destruct (get_all_rows_seq CACHE_TTL_SECONDS st1 rest) as [ress st2] eqn:Hseq.
      simpl. change st2 with (ress, st2).2. rewrite <- Hseq.
      rewrite (IH st1 (now + elapsed a)%Z); [simpl; lia|done| |done].
      apply cache_getitem_None. right. eexists _, _. split; [done|lia].
    + set (st1 := {| cache := _; fetches := _ |}).
      destruct (get_all_rows_seq CACHE_TTL_SECONDS st1 rest) as [ress st2] eqn:Hseq.
      simpl. change st2 with (ress, st2).2. rewrite <- Hseq.
      rewrite (IH st1 (now + elapsed a)%Z); [simpl; lia|done| |done].
      apply cache_getitem_None. apply cache_getitem_None in Hmiss
        as [?|(v & e' & ? & ?)]; [by left|]. right. exists v, e'. split; [done|lia].
Qed.

(** X17: a listing and a lookup that follows it before the cached rows
    expire agree: every profile of the unfiltered listing is found by
    its identifier, without a fetch and whatever has become of the
    remote sheet in between. *)
Theorem listing_then_lookup (st st1 : process) (t1 t2 : Z) (a1 a2 : attempt)
    (ps : list profile) (p : profile) (rows : list row) (expires : Z) :
  get_dogs CACHE_TTL_SECONDS None None st t1 a1 = (Ok ps, st1) →
  cache st1 = Some (rows, expires) →
  (t1 ≤ t2 < expires)%Z →
  p ∈ ps →
  ∃ (s : string) (q : profile),
    profile_id_str p = Some s
    ∧ get_dog CACHE_TTL_SECONDS s st1 t2 a2 = (Ok q, st1)
    ∧ profile_id_str q = Some s
    ∧ q ∈ ps.
Proof.
  intros Hlist Hcache Hwindow Hp.
  assert (Hrows : get_all_rows CACHE_TTL_SECONDS st1 t2 a2 = (Ok rows, st1)
                  ∧ get_all_rows CACHE_TTL_SECONDS st t1 a1 = (Ok rows, st1)).
  { unfold get_dogs in Hlist.
    destruct (get_all_rows CACHE_TTL_SECONDS st t1 a1) as [res st'] eqn:Hcall.
    assert (st' = st1) as -> by (destruct res; by injection Hlist).
    destruct (get_all_rows_within_window CACHE_TTL_SECONDS st st1 t1 t2 a1 a2 res rows
                expires Hcall Hcache Hwindow)
      as [Hsecond ->]. done. }
  destruct Hrows as [Hsecond Hfirst].
  assert (Hagain : get_dogs CACHE_TTL_SECONDS None None st1 t2 a2 = (Ok ps, st1)).
  { rewrite (get_dogs_rows _ _ _ _ _ _ _ _ Hfirst) in Hlist.
    by rewrite (get_dogs_rows _ _ _ _ _ _ _ _ Hsecond). }
  unfold get_dog, get_dogs in *. rewrite Hsecond in *.
  rewrite get_dogs_loop_nil_acc, select_unfiltered in Hagain by done.
  injection Hagain as <-. apply elem_of_mapped in Hp as (i & r & Hr & ->).
  set (s := py_str (py_or (row_get r "dog_id") (VStr (str_int (1 + Z.of_nat i))))).
  destruct (get_dog_loop_first s rows 1)
    as [(k & r' & Hk & Hid & _ & Hres)|[Hnone _]].
  - exists s, (map_row_to_dog r' (1 + Z.of_nat k)). rewrite Hres.
    split; [apply profile_id_str_mapped|]. split; [done|]. split; [done|].
    apply elem_of_mapped. eauto.
  - destruct (Hnone i r Hr). apply profile_id_str_mapped.
Qed.

End FurtherHandlers.

(** ** The client *)

(** X18: [get_gspread_client] returns a client exactly when the key is
    set and not empty and nothing fails while the client is built.
    Every failure, the missing key included, leaves it as a
    [RuntimeError] whose message starts with [Failed to create gspread
    client: ], and the sheet is then not read: the body of
    [get_all_rows] raises that same error. *)
Theorem get_gspread_client_outcome (a : attempt) :
  (get_gspread_client a = Ok tt
     ↔ is_Some (provided (service_json a)) ∧ client_setup a = None)
  ∧ (get_gspread_client a = Ok tt → fetch_rows a = sheet_read a)
  ∧ (provided (service_json a) = None →
     get_gspread_client a =
       Raise (RuntimeError
         ("Failed to create gspread client: " +:+ "RuntimeError(" +:+
          str_repr "Missing GOOGLE_SERVICE_KEY environment variable" +:+ ")")))
  ∧ (∀ e, get_gspread_client a = Raise e →
       (∃ m, e = RuntimeError ("Failed to create gspread client: " +:+ m))
       ∧ fetch_rows a = Raise e).
Proof.
  unfold fetch_rows, get_gspread_client.
  destruct (provided (service_json a)) as [key|]; simpl.
  - destruct (client_setup a) as [cause|]; simpl.
    + split; [split; [done|by intros [_ ?]]|]. split; [done|]. split; [done|].
      intros e [= <-]. eauto.
    + split; [split; [eauto|done]|]. by repeat split.
  - split; [split; [done|by intros [[? ?] _]]|]. split; [done|]. split; [done|].
    intros e [= <-]. eauto.
Qed.

End Further.

(** ** The further properties on concrete sheets *)

Lemma ascii_lower_idem (c : ascii) : ascii_lower (ascii_lower c) = ascii_lower c.
Proof. destruct c as [[] [] [] [] [] [] [] []]; reflexivity. Qed.

Lemma lower_ascii_idem (s : string) : lower_ascii (lower_ascii s) = lower_ascii s.
Proof. induction s as [|c s IH]; simpl; [done|]. by rewrite ascii_lower_idem, IH. Qed.

Lemma lower_ascii_empty (s : string) : lower_ascii s = "" ↔ s = "".
Proof. by destruct s. Qed.

Section FurtherExamples.
#[local] Existing Instance ascii_runtime.

Abbreviation pyval := (pyval float).
Abbreviation row := (row float).
Abbreviation entry := (entry float).
Abbreviation profile := (profile float).
Abbreviation attempt := (attempt float).
Abbreviation TTLCache := (TTLCache float).
Abbreviation process := (process float).

Lemma map_row_to_dog_only_headers_witness :
  (∀ h, h ∈ headers → rex !! h = rex_with_breed !! h)
  ∧ map_row_to_dog rex 1 = map_row_to_dog rex_with_breed 1.
Proof.
  assert (Hagree : ∀ h, h ∈ headers → rex !! h = rex_with_breed !! h).
  { intros h Hh. apply list_elem_of_In in Hh. vm_compute in Hh.
    repeat (destruct Hh as [<-|Hh]; [vm_compute; reflexivity|]). destruct Hh. }
  split; [exact Hagree|].
  exact (map_row_to_dog_only_headers rex rex_with_breed 1 Hagree).
Defined.

Lemma get_dogs_unfiltered_witness :
  provided None = None
  ∧ provided (Some "") = None
  ∧ get_all_rows 30 fresh 0 (sheet [numbered; stray]) =
      (Ok [numbered; stray], {| cache := Some ([numbered; stray], 31%Z); fetches := 1 |})
  ∧ get_dogs 30 None (Some "") fresh 0 (sheet [numbered; stray]) =
      (Ok (mapped 1 [numbered; stray]),
       {| cache := Some ([numbered; stray], 31%Z); fetches := 1 |}).
Proof.
  split; [reflexivity|]. split; [reflexivity|]. split; [reflexivity|].
  exact (proj1 (get_dogs_unfiltered 30 None (Some "") fresh _ 0 (sheet [numbered; stray])
                  [numbered; stray] eq_refl eq_refl eq_refl)).
Defined.

Lemma get_dogs_sublist_witness :
  get_all_rows 30 fresh 0 (sheet kennel) = (Ok kennel, warm)
  ∧ get_dogs 30 (Some "rex") None fresh 0 (sheet kennel) =
      (Ok [map_row_to_dog rex 1; map_row_to_dog rexy 3], warm)
  ∧ [map_row_to_dog rex 1; map_row_to_dog rexy 3] `sublist_of` mapped 1 kennel.
Proof.
  assert (Hlist : get_dogs 30 (Some "rex") None fresh 0 (sheet kennel) =
                    (Ok [map_row_to_dog rex 1; map_row_to_dog rexy 3], warm)).
  { rewrite (get_dogs_rows 30 _ _ fresh warm 0 (sheet kennel) kennel eq_refl).
    f_equal; vm_compute; reflexivity. }
  split; [reflexivity|]. split; [exact Hlist|].
  exact (proj1 (get_dogs_sublist 30 (Some "rex") None fresh warm 0 (sheet kennel) kennel
                  _ eq_refl Hlist)).
Defined.

Lemma get_dogs_errors_witness :
  get_dogs 30 None (Some "bob") fresh 0 (sheet [rex; stray]) =
    (Raise (AttributeError "'int' object has no attribute 'lower'"),
     {| cache := Some ([rex; stray], 31%Z); fetches := 1 |})
  ∧ ∃ r : row, r ∈ [rex; stray] ∧ numeric_name (row_get r "Pet owner's name") = true.
Proof.
  assert (Hraise : get_dogs 30 None (Some "bob") fresh 0 (sheet [rex; stray]) =
    (Raise (AttributeError "'int' object has no attribute 'lower'"),
     {| cache := Some ([rex; stray], 31%Z); fetches := 1 |})).
  { rewrite (get_dogs_rows 30 _ _ fresh _ 0 (sheet [rex; stray]) [rex; stray] eq_refl).
    f_equal; vm_compute; reflexivity. }
  split; [exact Hraise|].
  destruct (get_dogs_errors 30 None (Some "bob") fresh _ 0 (sheet [rex; stray]) _ Hraise)
    as [(e0 & Hfetch & _)|(rows & r & msg & Hrows & Hin & _ & [[Hdog _]|[_ Hown]])].
  - discriminate Hfetch.
  - destruct Hdog as [q Hq]. discriminate Hq.
  - injection Hrows as <-. exists r. split; [exact Hin | exact Hown].
Defined.

Lemma get_dogs_skips_before_owner_witness :
  provided (Some "rex") = Some "rex"
  ∧ get_all_rows 30 fresh 0 (sheet [stray]) =
      (Ok [stray], {| cache := Some ([stray], 31%Z); fetches := 1 |})
  ∧ get_dogs 30 (Some "rex") (Some "jane") fresh 0 (sheet [stray]) =
      (Ok [], {| cache := Some ([stray], 31%Z); fetches := 1 |}).
Proof.
  split; [reflexivity|]. split; [reflexivity|].
  apply (get_dogs_skips_before_owner 30 (Some "rex") (Some "jane") "rex" fresh _ 0
           (sheet [stray]) [stray]); [reflexivity| |reflexivity].
  constructor; [|constructor]. exists "Bella". split; vm_compute; reflexivity.
Defined.

Lemma get_dogs_query_case_witness :
  (∀ s, lower_ascii (lower_ascii s) = lower_ascii s)
  ∧ get_dogs 30 (Some (lower_ascii "REX")) (Some (lower_ascii "Jane")) fresh 0 (sheet kennel) =
      get_dogs 30 (Some "REX") (Some "Jane") fresh 0 (sheet kennel).
Proof.
  split; [exact lower_ascii_idem|].
  exact (get_dogs_query_case 30 "REX" "Jane" fresh 0 (sheet kennel)
           lower_ascii_idem lower_ascii_empty).
Defined.

Lemma get_dogs_narrower_query_witness :
  "Rex" ≠ ""
  ∧ str_in (lower_ascii "re") (lower_ascii "Rex") = true
  ∧ get_dogs_loop (Some "re") None 1 [rex; stray; rexy] [] =
      Ok [map_row_to_dog rex 1; map_row_to_dog rexy 3]
  ∧ get_dogs_loop (Some "Rex") None 1 [rex; stray; rexy] [] =
      Ok [map_row_to_dog rex 1; map_row_to_dog rexy 3]
  ∧ [map_row_to_dog rex 1; map_row_to_dog rexy 3]
      `sublist_of` [map_row_to_dog rex 1; map_row_to_dog rexy 3].
Proof.
  split; [discriminate|]. split; [reflexivity|].
  split; [vm_compute; reflexivity|]. split; [vm_compute; reflexivity|].
  apply (get_dogs_narrower_query "re" "Rex" None [rex; stray; rexy]);
    [discriminate | reflexivity | vm_compute; reflexivity | vm_compute; reflexivity].
Defined.

Lemma get_dog_in_listing_witness :
  get_dog 30 "5" fresh 0 (sheet kennel) = (Ok (map_row_to_dog bella 2), warm)
  ∧ ∃ ps : list profile,
      get_dogs 30 None None fresh 0 (sheet kennel) = (Ok ps, warm)
      ∧ map_row_to_dog bella 2 ∈ ps
      ∧ profile_id_str (map_row_to_dog bella 2) = Some "5".
Proof.
  assert (Hfound : get_dog 30 "5" fresh 0 (sheet kennel) =
                     (Ok (map_row_to_dog bella 2), warm)).
  { rewrite (get_dog_rows 30 _ fresh warm 0 (sheet kennel) kennel eq_refl).
    f_equal; vm_compute; reflexivity. }
  split; [exact Hfound|].
  exact (get_dog_in_listing 30 "5" fresh warm 0 (sheet kennel) _ Hfound).
Defined.

Lemma listed_id_is_found_witness :
  get_dogs 30 None None fresh 0 (sheet kennel) = (Ok (mapped 1 kennel), warm)
  ∧ map_row_to_dog rexy 3 ∈ mapped 1 kennel
  ∧ ∃ (s : string) (q : profile),
      profile_id_str (map_row_to_dog rexy 3) = Some s
      ∧ get_dog 30 s fresh 0 (sheet kennel) = (Ok q, warm)
      ∧ profile_id_str q = Some s
      ∧ q ∈ mapped 1 kennel.
Proof.
  assert (Hin : map_row_to_dog rexy 3 ∈ mapped 1 kennel).
  { apply list_elem_of_further, list_elem_of_further, list_elem_of_here. }
  split; [reflexivity|]. split; [exact Hin|].
  exact (listed_id_is_found 30 fresh warm 0 (sheet kennel) (mapped 1 kennel)
           (map_row_to_dog rexy 3) eq_refl Hin).
Defined.

Lemma get_dog_by_position_witness :
  Forall (λ r, truthy (row_get r "dog_id") = false) [rex; stray]
  ∧ get_all_rows 30 fresh 0 (sheet [rex; stray]) =
      (Ok [rex; stray], {| cache := Some ([rex; stray], 31%Z); fetches := 1 |})
  ∧ get_dog 30 (str_int (1 + Z.of_nat 1)) fresh 0 (sheet [rex; stray]) =
      (Ok (map_row_to_dog stray (1 + Z.of_nat 1)),
       {| cache := Some ([rex; stray], 31%Z); fetches := 1 |}).
Proof.
  assert (Hfalsy : Forall (λ r, truthy (row_get r "dog_id") = false) [rex; stray]).
  { repeat constructor; vm_compute; reflexivity. }
  split; [exact Hfalsy|]. split; [reflexivity|].
  exact (proj1 (get_dog_by_position 30 fresh _ 0 (sheet [rex; stray]) [rex; stray]
                  Hfalsy eq_refl) 1%nat stray eq_refl).
Defined.

Lemma get_dog_errors_witness :
  get_dog 30 "9" fresh 0 (sheet kennel) =
    (Raise (HTTPException 404 "Dog not found"), warm)
  ∧ get_all_rows 30 fresh 0 (sheet kennel) = (Ok kennel, warm).
Proof.
  assert (Hmiss : get_dog 30 "9" fresh 0 (sheet kennel) =
                    (Raise (HTTPException 404 "Dog not found"), warm)).
  { rewrite (get_dog_rows 30 _ fresh warm 0 (sheet kennel) kennel eq_refl).
    f_equal; vm_compute; reflexivity. }
  split; [exact Hmiss|].
  destruct (get_dog_errors 30 "9" fresh warm 0 (sheet kennel) _ Hmiss)
    as [(rows & Hrows & _)|(e0 & Hfetch & _)].
  - reflexivity.
  - discriminate Hfetch.
Defined.

Lemma cache_hit_iff_before_expiry_witness :
  get_all_rows 30 fresh 0 (sheet kennel) = (Ok kennel, warm)
  ∧ fetches warm = S (fetches fresh)
  ∧ (fetches (get_all_rows 30 warm 31 revoked).2 = fetches warm
       ↔ (31 < 0 + elapsed (sheet kennel) + 30)%Z).
Proof.
  split; [reflexivity|]. split; [reflexivity|].
  exact (proj1 (cache_hit_iff_before_expiry 30 fresh warm 0 31 (sheet kennel) revoked
                  kennel eq_refl eq_refl)).
Defined.

Lemma calls_before_expiry_witness :
  cache warm = Some (kennel, 31%Z)
  ∧ Forall (λ c : Z * attempt, (c.1 < 31)%Z) [(5%Z, revoked); (30%Z, sheet [])]
  ∧ get_all_rows_seq 30 warm [(5%Z, revoked); (30%Z, sheet [])] =
      ([Ok kennel; Ok kennel], warm).
Proof.
  assert (Hall : Forall (λ c : Z * attempt, (c.1 < 31)%Z)
                   [(5%Z, revoked); (30%Z, sheet [])]).
  { repeat constructor. }
  split; [reflexivity|]. split; [exact Hall|].
  exact (calls_before_expiry 30 warm kennel 31 _ eq_refl Hall).
Defined.

Lemma nonpositive_ttl_always_fetches_witness :
  (0 ≤ 0)%Z
  ∧ cache_getitem (cache fresh) 0 = None
  ∧ in_order 0 [(0%Z, sheet kennel); (1%Z, sheet kennel); (2%Z, revoked)]
  ∧ fetches (get_all_rows_seq 0 fresh
               [(0%Z, sheet kennel); (1%Z, sheet kennel); (2%Z, revoked)]).2 = 3%nat.
Proof.
  assert (Horder : in_order 0 [(0%Z, sheet kennel); (1%Z, sheet kennel); (2%Z, revoked)]).
  { cbv [in_order sheet revoked elapsed]. lia. }
  split; [lia|]. split; [reflexivity|]. split; [exact Horder|].
  exact (nonpositive_ttl_always_fetches 0 _ fresh 0 (Z.le_refl 0) eq_refl Horder).
Defined.

Lemma listing_then_lookup_witness :
  get_dogs 30 None None fresh 0 (sheet kennel) = (Ok (mapped 1 kennel), warm)
  ∧ cache warm = Some (kennel, 31%Z)
  ∧ (0 ≤ 30 < 31)%Z
  ∧ map_row_to_dog rex 1 ∈ mapped 1 kennel
  ∧ ∃ (s : string) (q : profile),
      profile_id_str (map_row_to_dog rex 1) = Some s
      ∧ get_dog 30 s warm 30 revoked = (Ok q, warm)
      ∧ profile_id_str q = Some s
      ∧ q ∈ mapped 1 kennel.
Proof.
  assert (Hin : map_row_to_dog rex 1 ∈ mapped 1 kennel) by apply list_elem_of_here.
  assert (Hwindow : (0 ≤ 30 < 31)%Z) by lia.
  split; [reflexivity|]. split; [reflexivity|]. split; [exact Hwindow|]. split; [exact Hin|].
  exact (listing_then_lookup 30 fresh warm 0 30 (sheet kennel) revoked (mapped 1 kennel)
           (map_row_to_dog rex 1) kennel 31 eq_refl eq_refl Hwindow Hin).
Defined.

End FurtherExamples.
